(** * workspaces.py: a shallow embedding and its verified properties

    The script drives [npm] and [git] over a list of workspace packages.
    Python [str] values are represented by [string] (the UTF-8 bytes of the
    text), the process state (working directory, file system, terminal and
    call trace) by the record [World], and every function that touches the
    process state is a computation in the state-and-exception monad [M]. *)

From Stdlib Require Import String Ascii List Bool Arith ZArith Lia.
Import ListNotations.
Local Open Scope list_scope.
Local Open Scope string_scope.

(** ** Python string primitives *)

Module PyStr.

(** [s.split(sep)] for a one-character separator: never the empty list. *)
Fixpoint split_on (sep : ascii) (s : string) : list string :=
  match s with
  | EmptyString => [EmptyString]
  | String c r =>
      if Ascii.eqb c sep then EmptyString :: split_on sep r
      else match split_on sep r with
           | [] => [String c EmptyString]
           | h :: t => String c h :: t
           end
  end.

(** [l[-1]] on a list of strings (the default is never reached after a
    split, which has at least one piece). *)
Definition last_item (l : list string) : string := List.last l EmptyString.

(** [s.startswith(p)]. *)
Fixpoint has_prefix (p s : string) : bool :=
  match p with
  | EmptyString => true
  | String a p' =>
      match s with
      | EmptyString => false
      | String b s' => Ascii.eqb a b && has_prefix p' s'
      end
  end.

(** [term in name]: substring test. *)
Fixpoint contains (term name : string) : bool :=
  if has_prefix term name then true
  else match name with
       | EmptyString => false
       | String _ r => contains term r
       end.

(** [sep.join(l)]. *)
Definition str_join (sep : string) (l : list string) : string :=
  String.concat sep l.

(** [c not in s] for a character. *)
Fixpoint free_of (c : ascii) (s : string) : bool :=
  match s with
  | EmptyString => true
  | String d r => negb (Ascii.eqb d c) && free_of c r
  end.

(** [s.startswith(c)] and [s.endswith(c)] for a character. *)
Definition starts_with (c : ascii) (s : string) : bool :=
  match s with
  | String d _ => Ascii.eqb d c
  | EmptyString => false
  end.

Fixpoint ends_with (c : ascii) (s : string) : bool :=
  match s with
  | EmptyString => false
  | String d EmptyString => Ascii.eqb d c
  | String _ r => ends_with c r
  end.

Definition is_empty (s : string) : bool :=
  match s with EmptyString => true | _ => false end.

(** What the text of the specification calls "contains as a substring". *)
Definition Substring (term name : string) : Prop :=
  exists pre post, name = pre ++ term ++ post.

End PyStr.

(** ** posixpath: the path functions of [os.path] the script calls *)

Module PosixPath.
Import PyStr.

Definition sep : ascii := "/"%char.
Definition curdir : string := ".".

Definition isabs (s : string) : bool := starts_with sep s.

(** [os.path.join(a, b)]. *)
Definition join (a b : string) : string :=
  if starts_with sep b then b
  else if is_empty a || ends_with sep a then a ++ b
  else a ++ String sep b.

(** One round of the loop of [normpath] over the components; [initial] says
    whether the path starts with a slash, [comps] is [new_comps]. *)
Definition norm_step (initial : bool) (comps : list string) (comp : string)
  : list string :=
  if String.eqb comp "" || String.eqb comp "." then comps
  else if negb (String.eqb comp "..")
          || (negb initial && match comps with [] => true | _ => false end)
          || (match comps with [] => false | _ => String.eqb (last_item comps) ".." end)
       then (comps ++ [comp])%list
       else match comps with
            | [] => comps
            | _ => removelast comps
            end.

(** Whether [normpath] keeps two leading slashes: the path starts with
    exactly two. *)
Definition two_slashes (path : string) : bool :=
  has_prefix "//" path && negb (has_prefix "///" path).

(** [os.path.normpath(path)]. *)
Definition normpath (path : string) : string :=
  if is_empty path then "."
  else
    let initial := starts_with sep path in
    let two := two_slashes path in
    let comps := fold_left (norm_step initial) (split_on sep path) [] in
    let body := PyStr.str_join "/" comps in
    let res := if initial then (if two then "//" else "/") ++ body else body in
    if is_empty res then "." else res.

(** [os.path.abspath(path)] in a process whose working directory is [cwd]. *)
Definition abspath_from (cwd path : string) : string :=
  normpath (if isabs path then path else join cwd path).

End PosixPath.

(** ** UTF-8 *)

Module Utf8.

Definition byte (c : ascii) : N := N_of_ascii c.

Definition between (lo hi : N) (c : ascii) : bool :=
  (N.leb lo (byte c) && N.leb (byte c) hi)%bool.

Definition cont : ascii -> bool := between 128 191.

(** The well-formed byte sequences of UTF-8, as [bytes.decode('utf8')]
    accepts them: no overlong forms, no surrogates, nothing above U+10FFFF. *)
Fixpoint valid (s : string) : bool :=
  match s with
  | EmptyString => true
  | String b0 r0 =>
      if between 0 127 b0 then valid r0
      else match r0 with
      | EmptyString => false
      | String b1 r1 =>
          if between 194 223 b0 then cont b1 && valid r1
          else match r1 with
          | EmptyString => false
          | String b2 r2 =>
              if between 224 224 b0 then between 160 191 b1 && cont b2 && valid r2
              else if between 225 236 b0 || between 238 239 b0
                   then cont b1 && cont b2 && valid r2
              else if between 237 237 b0 then between 128 159 b1 && cont b2 && valid r2
              else match r2 with
              | EmptyString => false
              | String b3 r3 =>
                  if between 240 240 b0
                  then between 144 191 b1 && cont b2 && cont b3 && valid r3
                  else if between 241 243 b0
                  then cont b1 && cont b2 && cont b3 && valid r3
                  else if between 244 244 b0
                  then between 128 143 b1 && cont b2 && cont b3 && valid r3
                  else false
              end
          end
      end
  end.

(** [b.decode('utf8')]: the text, or [None] where Python raises
    [UnicodeDecodeError]. A [str] is represented by its UTF-8 bytes. *)
Definition decode (b : string) : option string :=
  if valid b then Some b else None.

End Utf8.

(** ** The process state *)

Inductive Kind := Dir | File.

(** The file system: the existing entries by absolute normalised path, in
    the order the system enumerates them. *)
Definition FS := list (string * Kind).

Inductive Exn :=
| RuntimeError (msg : string)
| FileNotFoundError (path : string)
| NotADirectoryError (path : string)
| UnicodeDecodeError
| ValueError (msg : string).

Inductive Event :=
| EvPrint (line : string)
| EvShell (s : string) (dir : string) (before : FS)
| EvRmtree (path : string)
| EvPool (nb_threads : Z).

Record World := mkWorld {
  cwd : string;
  fs : FS;
  log : list Event
}.

(** What running a command through the shell does. *)
Record ShellOut := mkShellOut {
  status : Z;
  stdout : string;
  fs_after : FS
}.

Inductive Result (A : Type) :=
| Ok (a : A)
| Raise (e : Exn).
Arguments Ok {A} a.
Arguments Raise {A} e.

Definition M (A : Type) : Type := World -> Result A * World.

Definition ret {A} (a : A) : M A := fun w => (Ok a, w).

Definition bind {A B} (m : M A) (k : A -> M B) : M B :=
  fun w => match m w with
           | (Ok a, w1) => k a w1
           | (Raise e, w1) => (Raise e, w1)
           end.

Definition raise {A} (e : Exn) : M A := fun w => (Raise e, w).

(** [try: body finally: cleanup]: the cleanup always runs; an exception it
    raises replaces the outcome of the body. *)
Definition try_finally {A} (body : M A) (cleanup : M unit) : M A :=
  fun w => match body w with
           | (r, w1) =>
               match cleanup w1 with
               | (Ok _, w2) => (r, w2)
               | (Raise e, w2) => (Raise e, w2)
               end
           end.

Declare Scope py_scope.
Delimit Scope py_scope with py.
Notation "x <- m ;; k" := (bind m (fun x => k))
  (at level 61, m at next level, right associativity) : py_scope.
Notation "m ;; k" := (bind m (fun _ => k))
  (at level 61, right associativity) : py_scope.
Local Open Scope py_scope.

(** [for x in l: body(x)]. *)
Fixpoint for_each {A} (body : A -> M unit) (l : list A) : M unit :=
  match l with
  | [] => ret tt
  | x :: r => body x ;; for_each body r
  end.

(** [[f(x) for x in l]]. *)
Fixpoint list_comp {A B} (f : A -> M B) (l : list A) : M (list B) :=
  match l with
  | [] => ret []
  | x :: r => y <- f x ;; ys <- list_comp f r ;; ret (y :: ys)
  end.

Definition emit (e : Event) : M unit :=
  fun w => (Ok tt, mkWorld (cwd w) (fs w) (log w ++ [e])).

Definition print (line : string) : M unit := emit (EvPrint line).

(** ** The operating-system calls of the script *)

Module Os.
Import PyStr.

Fixpoint lookup (f : FS) (p : string) : option Kind :=
  match f with
  | [] => None
  | (q, k) :: r => if String.eqb q p then Some k else lookup r p
  end.

Fixpoint strip_prefix (p s : string) : option string :=
  match p with
  | EmptyString => Some s
  | String a p' =>
      match s with
      | EmptyString => None
      | String b s' => if Ascii.eqb a b then strip_prefix p' s' else None
      end
  end.

Definition with_slash (d : string) : string :=
  if ends_with PosixPath.sep d then d else d ++ "/".

(** The name under which the entry [p] shows in a listing of [d], if it is
    an immediate child of [d]. *)
Definition child_name (d p : string) : option string :=
  match strip_prefix (with_slash d) p with
  | Some n => if negb (is_empty n) && free_of PosixPath.sep n then Some n else None
  | None => None
  end.

Definition children (f : FS) (d : string) : list string :=
  flat_map (fun e => match child_name d (fst e) with
                     | Some n => [n]
                     | None => []
                     end) f.

(** Whether the entry [p] is [d] itself or lies below it. *)
Definition under (d p : string) : bool :=
  String.eqb p d || has_prefix (with_slash d) p.

Definition abspath (path : string) : M string :=
  fun w => (Ok (PosixPath.abspath_from (cwd w) path), w).

Definition path_isdir (path : string) : M bool :=
  fun w => (Ok match lookup (fs w) (PosixPath.abspath_from (cwd w) path) with
               | Some Dir => true
               | _ => false
               end, w).

Definition path_exists (path : string) : M bool :=
  fun w => (Ok match lookup (fs w) (PosixPath.abspath_from (cwd w) path) with
               | Some _ => true
               | None => false
               end, w).

Definition listdir (path : string) : M (list string) :=
  fun w => let d := PosixPath.abspath_from (cwd w) path in
           match lookup (fs w) d with
           | Some Dir => (Ok (children (fs w) d), w)
           | Some File => (Raise (NotADirectoryError path), w)
           | None => (Raise (FileNotFoundError path), w)
           end.

Definition chdir (path : string) : M unit :=
  fun w => let d := PosixPath.abspath_from (cwd w) path in
           match lookup (fs w) d with
           | Some Dir => (Ok tt, mkWorld d (fs w) (log w))
           | Some File => (Raise (NotADirectoryError path), w)
           | None => (Raise (FileNotFoundError path), w)
           end.

(** The file system without the directory [d] and what lies below it. *)
Definition without_tree (d : string) (f : FS) : FS :=
  filter (fun e => negb (under d (fst e))) f.

(** [shutil.rmtree(path)]; the call is recorded in the trace. *)
Definition rmtree (path : string) : M unit :=
  fun w => let d := PosixPath.abspath_from (cwd w) path in
           let w1 := mkWorld (cwd w) (fs w) (log w ++ [EvRmtree path]) in
           match lookup (fs w) d with
           | Some Dir =>
               (Ok tt, mkWorld (cwd w) (without_tree d (fs w)) (log w1))
           | Some File => (Raise (NotADirectoryError path), w1)
           | None => (Raise (FileNotFoundError path), w1)
           end.

Section Shell.

(** [shell s dir f]: what the command [s], run by the shell in directory
    [dir] on the file system [f], returns and leaves behind. *)
Variable shell : string -> string -> FS -> ShellOut.

Definition run_shell (s : string) : M ShellOut :=
  fun w => let o := shell s (cwd w) (fs w) in
           (Ok o, mkWorld (cwd w) (fs_after o) (log w ++ [EvShell s (cwd w) (fs w)])).

(** [os.system(s)]: the status of the command. *)
Definition system (s : string) : M Z :=
  o <- run_shell s ;; ret (status o).

(** [subprocess.run(s, shell=True, stdout=subprocess.PIPE)]. *)
Definition subprocess_run (s : string) : M ShellOut := run_shell s.

End Shell.

End Os.

(** ** The script *)

Record Args := mkArgs {
  args_packages : string;
  args_dist_only : bool;
  args_node_modules_only : bool;
  args_args : list string
}.

Definition newline : string := String (ascii_of_nat 10) EmptyString.

Fixpoint repeat_str (s : string) (n : nat) : string :=
  match n with
  | O => EmptyString
  | S k => s ++ repeat_str s k
  end.

Definition in_list (x : string) (l : list string) : bool :=
  existsb (String.eqb x) l.

Fixpoint matches_loop (name : string) (terms : list string) : bool :=
  match terms with
  | [] => false
  | term :: r => if PyStr.contains term name then true else matches_loop name r
  end.

Definition matches (package packages : string) : bool :=
  if PyStr.is_empty packages then true
  else
    let name := PyStr.last_item (PyStr.split_on "/" package) in
    matches_loop name (PyStr.split_on "," packages).

Definition seed : list string :=
  ["packages/cdn"; "smc-util"; "smc-hub"; "smc-webapp"; "webapp-lib"].

Section Script.

Variable shell : string -> string -> FS -> ShellOut.

(** [ThreadPool(nb_threads).map(callable, inputs)]. *)
Variable pool_map : forall A B : Type, Z -> (A -> M B) -> list A -> M (list B).

Definition handle_path (s : string) (path : option string) (verbose : bool)
  : M unit :=
  desc <- match path with
          | Some p => Os.chdir p ;; ret (s ++ " # in '" ++ p ++ "'")
          | None => ret s
          end ;;
  if verbose then print desc else ret tt.

Definition execution_error (s : string) : Exn :=
  RuntimeError ("Error executing '" ++ s ++ "'").

(** The body of the [try] block of [cmd]. *)
Definition cmd_try (s : string) (path : option string) (verbose : bool) : M unit :=
  handle_path s path verbose ;;
  st <- Os.system shell s ;;
  if negb (Z.eqb st 0) then raise (execution_error s) else ret tt.

Definition cmd (s : string) (path : option string) (verbose : bool) : M unit :=
  home <- Os.abspath PosixPath.curdir ;;
  try_finally (cmd_try s path verbose) (Os.chdir home).

(** The body of the [try] block of [run]: the output is decoded before the
    return code is looked at. *)
Definition run_try (s : string) (path : option string) (verbose : bool) : M string :=
  handle_path s path verbose ;;
  a <- Os.subprocess_run shell s ;;
  out <- match Utf8.decode (stdout a) with
         | Some t => ret t
         | None => raise UnicodeDecodeError
         end ;;
  if negb (Z.eqb (status a) 0) then raise (execution_error s) else ret out.

Definition run (s : string) (path : option string) (verbose : bool) : M string :=
  home <- Os.abspath PosixPath.curdir ;;
  try_finally (run_try s path verbose) (Os.chdir home).

Definition thread_map {A B} (callable : A -> M B) (inputs : list A) (nb_threads : Z)
  : M (list B) :=
  if Nat.eqb (List.length inputs) 0 then ret []
  else if Z.eqb nb_threads 1 then list_comp callable inputs
  else emit (EvPool nb_threads) ;; pool_map A B nb_threads callable inputs.

Fixpoint packages_loop (names v : list string) : M (list string) :=
  match names with
  | [] => ret v
  | x :: r =>
      let path := PosixPath.join "packages" x in
      keep <- (if negb (in_list path v) then Os.path_isdir path else ret false) ;;
      packages_loop r (if keep then v ++ [path] else v)%list
  end.

Definition packages (args : Args) : M (list string) :=
  names <- Os.listdir "packages" ;;
  v <- packages_loop names seed ;;
  let p := filter (fun x => matches x (args_packages args)) v in
  print ("Packages:  " ++ PyStr.str_join ", " p) ;;
  ret p.

Definition banner (s : string) : M unit :=
  print (newline ++ repeat_str "=" 70) ;;
  print ("|| " ++ s) ;;
  print (repeat_str "=" 70 ++ newline).

Definition ci (args : Args) : M unit :=
  v <- packages args ;;
  for_each (fun path => cmd "npm ci" (Some path) true) v.

Definition build_body (path : string) : M unit :=
  (if negb (String.eqb path "packages/static") then
     let dist := PosixPath.join path "dist" in
     e <- Os.path_exists dist ;;
     if e then Os.rmtree dist else ret tt
   else ret tt) ;;
  cmd "time npm run build" (Some path) true.

Definition build (args : Args) : M unit :=
  v <- packages args ;;
  for_each build_body v.

Definition clean_folders (args : Args) : list string :=
  if args_dist_only args then ["dist"]
  else if args_node_modules_only args then ["node_modules"]
  else ["node_modules"; "dist"].

Fixpoint clean_inner (path : string) (folders paths : list string)
  : M (list string) :=
  match folders with
  | [] => ret paths
  | x :: r =>
      y <- Os.abspath (PosixPath.join path x) ;;
      e <- Os.path_exists y ;;
      clean_inner path r (if e then paths ++ [y] else paths)%list
  end.

Fixpoint clean_outer (v folders paths : list string) : M (list string) :=
  match v with
  | [] => ret paths
  | path :: r =>
      paths' <- clean_inner path folders paths ;;
      clean_outer r folders paths'
  end.

Definition clean_f (path : string) : M unit :=
  print ("rm -rf '" ++ path ++ "'") ;;
  Os.rmtree path.

Definition clean_g (path : string) : M unit :=
  cmd "npm run clean --if-present" (Some path) true.

Definition clean (args : Args) : M unit :=
  v <- packages args ;;
  let folders := clean_folders args in
  paths <- clean_outer v folders [] ;;
  (if Nat.eqb (List.length paths) 0
   then banner "No node_modules or dist directories"
   else banner ("Deleting " ++ PyStr.str_join ", " paths) ;;
        thread_map clean_f paths 10 ;; ret tt) ;;
  banner "Running 'npm run clean' if it exists..." ;;
  dirs <- list_comp Os.abspath v ;;
  thread_map clean_g dirs 10 ;;
  ret tt.

Definition npm (args : Args) : M unit :=
  v <- packages args ;;
  inputs <- list_comp
              (fun path =>
                 let s := "time npm " ++ PyStr.str_join " " (args_args args) in
                 p <- Os.abspath path ;; ret (s, p)) v ;;
  thread_map (fun a => cmd (fst a) (Some (snd a)) true) inputs 10 ;;
  ret tt.

Definition version_check (args : Args) : M unit :=
  cmd "scripts/check_npm_packages.py" None true.

Definition publish_package (path : string) : M unit :=
  c <- run "git status ." (Some path) true ;;
  print c.

Definition publish (args : Args) : M unit :=
  v <- packages args ;;
  for_each publish_package v.

End Script.

(** ** Vocabulary of the specification *)

(** The list [packages] assembles before it filters, as a function of the
    directory test: the seed, then every listed name that is a directory and
    not yet in the list. *)
Fixpoint assemble (isdir : string -> bool) (names v : list string) : list string :=
  match names with
  | [] => v
  | x :: r =>
      let path := PosixPath.join "packages" x in
      assemble isdir r
        (if negb (in_list path v) && isdir path then v ++ [path] else v)%list
  end.

Definition isdir_in (w : World) (path : string) : bool :=
  match Os.lookup (fs w) (PosixPath.abspath_from (cwd w) path) with
  | Some Dir => true
  | _ => false
  end.

Definition assembled (w : World) (names : list string) : list string :=
  assemble (isdir_in w) names seed.

(** [l] is the filter string [f] split on commas. *)
Definition Terms (f : string) (l : list string) : Prop :=
  l <> [] /\ PyStr.str_join "," l = f /\
  Forall (fun t => PyStr.free_of "," t = true) l.

(** [seg] is the final path segment of [x]: what follows the last slash. *)
Definition FinalSegment (x seg : string) : Prop :=
  PyStr.free_of "/" seg = true /\ (x = seg \/ exists pre, x = pre ++ "/" ++ seg).

(** The selection rule of the specification: the filter is empty, or the
    final segment of the package contains one of its terms. *)
Definition Selected (f x : string) : Prop :=
  f = "" \/
  exists l seg term,
    Terms f l /\ FinalSegment x seg /\ In term l /\ PyStr.Substring term seg.

(** The world after a line was printed. *)
Definition printed (line : string) (w : World) : World :=
  mkWorld (cwd w) (fs w) (log w ++ [EvPrint line]).

(** ** A sample checkout

    A small repository used to run the script on concrete inputs. *)

Module Sample.

Definition tree : FS :=
  [("/", Dir); ("/repo", Dir); ("/repo/packages", Dir);
   ("/repo/packages/static", Dir); ("/repo/packages/cdn", Dir);
   ("/repo/packages/README.md", File);
   ("/repo/packages/static/dist", Dir);
   ("/repo/packages/static/dist/app.js", File);
   ("/repo/smc-util", Dir); ("/repo/smc-hub", Dir);
   ("/repo/smc-hub/dist", Dir); ("/repo/smc-hub/node_modules", Dir);
   ("/repo/smc-webapp", Dir); ("/repo/webapp-lib", Dir)].

Definition world : World := mkWorld "/repo" tree [].


(** [clean] called with both of its flags. *)
Definition both_flags : Args := mkArgs "" true true [].

(** A shell in which every command succeeds silently and changes nothing. *)
Definition quiet (s dir : string) (f : FS) : ShellOut := mkShellOut 0 "" f.

(** A shell in which every command writes the single byte 0xFF, which is
    not UTF-8, and exits with the given status. *)
Definition garbled (st : Z) (s dir : string) (f : FS) : ShellOut :=
  mkShellOut st (String (ascii_of_nat 255) EmptyString) f.

(** A shell in which the commands run in [smc-webapp] fail. *)
Definition webapp_fails (s dir : string) (f : FS) : ShellOut :=
  mkShellOut (if String.eqb dir "/repo/smc-webapp" then 1 else 0) "" f.

End Sample.

(** What [os.getcwd()] always returns: an absolute, normalised path. *)
Definition wf_cwd (w : World) : Prop :=
  PosixPath.isabs (cwd w) = true /\ PosixPath.normpath (cwd w) = cwd w.

(** The world right after the shell ran the command [s] in the world [w]. *)
Definition after_shell (shell : string -> string -> FS -> ShellOut)
  (s : string) (w : World) : World :=
  mkWorld (cwd w) (fs_after (shell s (cwd w) (fs w)))
    (log w ++ [EvShell s (cwd w) (fs w)]).

(** The same world, in another working directory. *)
Definition moved (dir : string) (w : World) : World :=
  mkWorld dir (fs w) (log w).


(** ** The git handlers

    [status] and [diff] look up, for each package, the commit that last
    changed the version line of its manifest, and show the changes since. *)

Module PyWs.

Definition code (c : ascii) : N := N_of_ascii c.

(** The whitespace characters of one byte: U+0009 to U+000D, U+001C to
    U+001F and the space. *)
Definition ascii_space (c : ascii) : bool :=
  (N.leb 9 (code c) && N.leb (code c) 13) || (N.leb 28 (code c) && N.leb (code c) 32).

(** The number of bytes of the whitespace character at the head of [s], 0
    when [s] does not start with one. Beyond one byte, the whitespace of
    [str.isspace] is U+0085, U+00A0, U+1680, U+2000 to U+200A, U+2028,
    U+2029, U+202F, U+205F and U+3000, here in UTF-8. *)
Definition ws_len (s : string) : nat :=
  match s with
  | EmptyString => 0
  | String a r =>
      if ascii_space a then 1
      else match r with
      | EmptyString => 0
      | String b r' =>
          if N.eqb (code a) 194
          then (if N.eqb (code b) 133 || N.eqb (code b) 160 then 2 else 0)
          else match r' with
          | EmptyString => 0
          | String c _ =>
              if N.eqb (code a) 225 && N.eqb (code b) 154 && N.eqb (code c) 128
              then 3
              else if N.eqb (code a) 226 && N.eqb (code b) 128 &&
                      ((N.leb 128 (code c) && N.leb (code c) 138) ||
                       N.eqb (code c) 168 || N.eqb (code c) 169 ||
                       N.eqb (code c) 175)
              then 3
              else if N.eqb (code a) 226 && N.eqb (code b) 129 && N.eqb (code c) 159
              then 3
              else if N.eqb (code a) 227 && N.eqb (code b) 128 && N.eqb (code c) 128
              then 3
              else 0
          end
      end
  end.

(** The loop of [s.split()]: [skip] bytes of a whitespace character are
    still to pass over, [cur] is the token read so far. *)
Fixpoint split_go (skip : nat) (cur : string) (s : string) : list string :=
  match s with
  | EmptyString => if PyStr.is_empty cur then [] else [cur]
  | String c r =>
      match skip with
      | S k => split_go k cur r
      | O =>
          match ws_len s with
          | O => split_go 0 (cur ++ String c EmptyString) r
          | S k => ((if PyStr.is_empty cur then [] else [cur]) ++ split_go k EmptyString r)%list
          end
      end
  end.

(** [s.split()]: the maximal runs of characters that are not whitespace. *)
Definition split (s : string) : list string := split_go 0 EmptyString s.

(** [l[0]]: [None] stands for the [IndexError] Python raises on the empty
    list. *)
Definition first_item (l : list string) : option string :=
  match l with
  | [] => None
  | x :: _ => Some x
  end.

End PyWs.

Definition dquote : string := String (ascii_of_nat 34) EmptyString.

Definition blame_command : string :=
  "git blame package.json |grep '  " ++ dquote ++ "version" ++ dquote ++ ":'".

Section GitHandlers.

Variable shell : string -> string -> FS -> ShellOut.

(** The functions of this section return [None] where Python raises the
    [IndexError] of [split()[0]]; the callers pass it on. *)
Definition last_commit_when_version_changed (path : string) : M (option string) :=
  out <- run shell blame_command (Some path) false ;;
  ret (PyWs.first_item (PyWs.split out)).

Definition package_status (path : string) : M (option unit) :=
  c <- last_commit_when_version_changed path ;;
  match c with
  | Some commit =>
      cmd shell ("git diff  --name-status " ++ commit ++ " .") (Some path) false ;;
      ret (Some tt)
  | None => ret None
  end.

Definition package_diff (path : string) : M (option unit) :=
  c <- last_commit_when_version_changed path ;;
  match c with
  | Some commit =>
      cmd shell ("git diff  " ++ commit ++ " .") (Some path) false ;;
      ret (Some tt)
  | None => ret None
  end.

(** [for x in l: body(x)] for a body that may raise [IndexError]. *)
Fixpoint for_each_indexed {A} (body : A -> M (option unit)) (l : list A)
  : M (option unit) :=
  match l with
  | [] => ret (Some tt)
  | x :: r =>
      o <- body x ;;
      match o with
      | Some _ => for_each_indexed body r
      | None => ret None
      end
  end.

(** The handler [status]; the name is taken by the status of a command. *)
Definition status_handler (args : Args) : M (option unit) :=
  v <- packages args ;;
  for_each_indexed package_status v.

Definition diff (args : Args) : M (option unit) :=
  v <- packages args ;;
  for_each_indexed package_diff v.

End GitHandlers.

(** ** Vocabulary of the traces *)

(** The commands a trace ran through the shell, each with its directory. *)
Definition shell_calls (evs : list Event) : list (string * string) :=
  flat_map (fun e => match e with
                     | EvShell s d _ => [(s, d)]
                     | _ => []
                     end) evs.

(** The lines a trace printed. *)
Definition printed_lines (evs : list Event) : list string :=
  flat_map (fun e => match e with
                     | EvPrint line => [line]
                     | _ => []
                     end) evs.

(** The directory a call of [cmd] or [run] works in, and what it prints
    before the command when verbose. *)
Definition target (path : option string) (w : World) : string :=
  match path with
  | Some p => PosixPath.abspath_from (cwd w) p
  | None => cwd w
  end.

Definition announced (s : string) (path : option string) (verbose : bool)
  : list Event :=
  if verbose
  then [EvPrint match path with
                | Some p => s ++ " # in '" ++ p ++ "'"
                | None => s
                end]
  else [].

(** Whether the path [y] exists in the world [w]. *)
Definition exists_in (w : World) (y : string) : bool :=
  match Os.lookup (fs w) (PosixPath.abspath_from (cwd w) y) with
  | Some _ => true
  | None => false
  end.

(** A token of [split()] as the handlers need it: not empty, and without
    one-byte whitespace. *)
Definition plain_token (t : string) : Prop :=
  t <> "" /\ forall c, In c (list_ascii_of_string t) -> PyWs.ascii_space c = false.

(** The six lines [banner] prints around [s] and around the second
    announcement of [clean]. *)
Definition banner_lines (s : string) : list Event :=
  [EvPrint (newline ++ repeat_str "=" 70);
   EvPrint ("|| " ++ s);
   EvPrint (repeat_str "=" 70 ++ newline)].

Module SampleGit.

(** A shell that answers the blame pipeline with one line of [git blame]
    and runs every other command silently. *)
Definition blames (s dir : string) (f : FS) : ShellOut :=
  mkShellOut 0
    (if String.eqb s blame_command
     then "9f3c2ab1 (dev 2021-03-01 10:00:00 +0000 3)   " ++ dquote ++ "version"
          ++ dquote ++ ": " ++ dquote ++ "1.2.0" ++ dquote ++ ","
     else "")
    f.

(** A shell whose commands print nothing at all. *)
Definition blank (s dir : string) (f : FS) : ShellOut := mkShellOut 0 " " f.

(** A checkout without the packages root. *)
Definition bare : World := mkWorld "/repo" [("/", Dir); ("/repo", Dir)] [].

(** A pool that runs its tasks one after the other. *)
Definition serial_pool (A B : Type) (n : Z) (f : A -> M B) (l : list A)
  : M (list B) := list_comp f l.

End SampleGit.

(** * Properties *)

(** ** Facts about the string primitives *)

Module PyStrFacts.
Import PyStr.

Lemma split_on_cons sep s : exists h t, split_on sep s = h :: t.
Proof.
  induction s as [|c r IH]; simpl; [eauto|].
  destruct (Ascii.eqb c sep); [eauto|].
  destruct IH as (h & t & ->); eauto.
Qed.

Lemma join_cons sep x y l :
  str_join sep (x :: y :: l) = x ++ sep ++ str_join sep (y :: l).
Proof. reflexivity. Qed.

Lemma join_split sep s : str_join (String sep EmptyString) (split_on sep s) = s.
Proof.
  induction s as [|c r IH]; [reflexivity|].
  cbn [split_on].
  destruct (split_on_cons sep r) as (h & t & E). rewrite E in *.
  destruct (Ascii.eqb c sep) eqn:Ec.
  - apply Ascii.eqb_eq in Ec as ->. rewrite join_cons, IH. reflexivity.
  - destruct t as [|y t].
    + cbn in *. now rewrite IH.
    + rewrite join_cons. rewrite join_cons in IH. rewrite <- IH. reflexivity.
Qed.

Lemma split_free sep s : Forall (fun t => free_of sep t = true) (split_on sep s).
Proof.
  induction s as [|c r IH]; simpl; [repeat constructor|].
  destruct (Ascii.eqb_spec c sep) as [->|Hne].
  - constructor; [reflexivity|assumption].
  - destruct (split_on_cons sep r) as (h & t & E). rewrite E in *.
    inversion IH; subst. constructor; [|assumption].
    simpl. apply Ascii.eqb_neq in Hne. now rewrite Hne.
Qed.

Lemma split_free_id sep s : free_of sep s = true -> split_on sep s = [s].
Proof.
  induction s as [|c r IH]; simpl; [reflexivity|].
  destruct (Ascii.eqb c sep); simpl; [discriminate|].
  intros H. now rewrite (IH H).
Qed.

Lemma split_app sep a b :
  split_on sep (a ++ String sep b) = (split_on sep a ++ split_on sep b)%list.
Proof.
  induction a as [|c r IH]; simpl.
  - now rewrite Ascii.eqb_refl.
  - destruct (Ascii.eqb c sep); simpl; [now rewrite IH|].
    rewrite IH. destruct (split_on_cons sep r) as (h & t & ->). reflexivity.
Qed.

Lemma split_app_free sep a b :
  free_of sep a = true ->
  split_on sep (a ++ b) =
  match split_on sep b with
  | [] => [a]
  | h :: t => (a ++ h) :: t
  end.
Proof.
  induction a as [|c r IH]; simpl; intros Hf.
  - destruct (split_on_cons sep b) as (h & t & ->). reflexivity.
  - destruct (Ascii.eqb c sep); simpl in Hf; [discriminate|].
    rewrite (IH Hf). destruct (split_on_cons sep b) as (h & t & ->). reflexivity.
Qed.

Lemma last_item_app l m : m <> [] -> last_item (l ++ m)%list = last_item m.
Proof.
  unfold last_item. induction l as [|x l IH]; simpl; intros Hm; [reflexivity|].
  rewrite <- (IH Hm). destruct (l ++ m)%list eqn:E; [|reflexivity].
  apply app_eq_nil in E. tauto.
Qed.

Lemma last_item_split_in sep s : In (last_item (split_on sep s)) (split_on sep s).
Proof.
  destruct (split_on_cons sep s) as (h & t & E). rewrite E.
  unfold last_item. clear E. revert h.
  induction t as [|x t IH]; intros h; simpl; [now left|].
  right. apply (IH x).
Qed.

Lemma last_sep_decompose sep s :
  free_of sep s = true \/
  exists pre x, s = pre ++ String sep x /\ free_of sep x = true.
Proof.
  induction s as [|c r [IH|(pre & x & -> & Hx)]].
  - now left.
  - destruct (Ascii.eqb c sep) eqn:Ec.
    + right. exists EmptyString, r. apply Ascii.eqb_eq in Ec as ->. now split.
    + left. simpl. now rewrite Ec.
  - right. now exists (String c pre), x.
Qed.

(** The last piece of a split is the part of the string after the last
    separator: it holds no separator, and the string is either that piece
    alone or ends in a separator followed by that piece. *)
Lemma last_item_split sep s :
  free_of sep (last_item (split_on sep s)) = true /\
  (s = last_item (split_on sep s) \/
   exists pre, s = pre ++ String sep (last_item (split_on sep s))).
Proof.
  destruct (last_sep_decompose sep s) as [F|(pre & x & -> & F)].
  - rewrite (split_free_id _ _ F). cbn. split; [assumption|now left].
  - rewrite split_app, last_item_app, (split_free_id _ _ F).
    + cbn. split; [assumption|right; now exists pre].
    + rewrite (split_free_id _ _ F). discriminate.
Qed.

Lemma has_prefix_spec a b : has_prefix a b = true <-> exists post, b = a ++ post.
Proof.
  revert b. induction a as [|c a IH]; intros b; simpl.
  - split; [intros _; now exists b|reflexivity].
  - destruct b as [|d b]; [split; [discriminate|intros (p & Hp); discriminate]|].
    destruct (Ascii.eqb_spec c d) as [->|Hne]; simpl.
    + rewrite IH. split; intros (p & Hp); exists p; [now subst|now injection Hp].
    + split; [discriminate|]. intros (p & Hp). injection Hp. congruence.
Qed.

Lemma contains_spec term name : contains term name = true <-> Substring term name.
Proof.
  unfold Substring. induction name as [|d r IH]; cbn [contains].
  - destruct (has_prefix term EmptyString) eqn:P.
    + split; [intros _|reflexivity]. apply has_prefix_spec in P as (p & Hp).
      exists EmptyString, p. exact Hp.
    + split; [discriminate|]. intros (a & b & H).
      destruct a; simpl in H; [|discriminate].
      assert (has_prefix term EmptyString = true)
        by (apply has_prefix_spec; now exists b).
      congruence.
  - destruct (has_prefix term (String d r)) eqn:P.
    + split; [intros _|reflexivity]. apply has_prefix_spec in P as (p & Hp).
      exists EmptyString, p. exact Hp.
    + rewrite IH. split.
      * intros (a & b & H). exists (String d a), b. simpl. now rewrite H.
      * intros (a & b & H). destruct a as [|e a]; simpl in H.
        -- assert (has_prefix term (String d r) = true)
             by (apply has_prefix_spec; now exists b).
           congruence.
        -- injection H as _ H. now exists a, b.
Qed.

Lemma contains_empty name : contains EmptyString name = true.
Proof. destruct name; reflexivity. Qed.

Lemma join_unique sep l :
  l <> [] -> Forall (fun t => free_of sep t = true) l ->
  split_on sep (str_join (String sep EmptyString) l) = l.
Proof.
  induction l as [|x [|y l] IH]; intros Hne HF; [congruence| |].
  - inversion HF; subst. cbn. now apply split_free_id.
  - inversion HF as [|? ? Hx HF']; subst.
    rewrite join_cons. cbn [append].
    rewrite split_app, (split_free_id _ _ Hx), IH; [reflexivity|discriminate|assumption].
Qed.

End PyStrFacts.

(** ** The package selector *)

Module SelectorFacts.
Import PyStr PyStrFacts.

Lemma terms_unique f l : Terms f l -> l = split_on "," f.
Proof. intros (Hne & <- & HF). symmetry. now apply join_unique. Qed.

Lemma terms_split f : Terms f (split_on "," f).
Proof.
  repeat split.
  - destruct (split_on_cons "," f) as (h & t & ->). discriminate.
  - apply join_split.
  - apply split_free.
Qed.

Lemma final_segment_unique x seg :
  FinalSegment x seg -> seg = last_item (split_on "/" x).
Proof.
  intros (HF & [->|(pre & ->)]).
  - now rewrite (split_free_id _ _ HF).
  - cbn [append]. rewrite split_app, last_item_app, (split_free_id _ _ HF);
      [reflexivity|rewrite (split_free_id _ _ HF); discriminate].
Qed.

Lemma final_segment_last x : FinalSegment x (last_item (split_on "/" x)).
Proof. exact (last_item_split "/" x). Qed.

Lemma matches_loop_existsb name terms :
  matches_loop name terms = existsb (fun term => contains term name) terms.
Proof.
  induction terms as [|t r IH]; [reflexivity|].
  cbn. now destruct (contains t name).
Qed.

Lemma is_empty_spec s : is_empty s = true <-> s = "".
Proof. destruct s; split; (reflexivity || discriminate). Qed.

Lemma matches_spec x f : matches x f = true <-> Selected f x.
Proof.
  unfold matches, Selected. destruct (is_empty f) eqn:E.
  - apply is_empty_spec in E. tauto.
  - rewrite matches_loop_existsb, existsb_exists. split.
    + intros (t & Hin & Hc). right.
      exists (split_on "," f), (last_item (split_on "/" x)), t.
      repeat split; try apply terms_split; try apply final_segment_last;
        [assumption|now apply contains_spec].
    + intros [->|(l & seg & t & HT & HS & Hin & Hsub)]; [discriminate|].
      apply terms_unique in HT as ->. apply final_segment_unique in HS as ->.
      exists t. split; [assumption|now apply contains_spec].
Qed.

Lemma in_list_spec x l : in_list x l = true <-> In x l.
Proof.
  unfold in_list. rewrite existsb_exists. split.
  - intros (y & Hin & He). apply String.eqb_eq in He. now subst.
  - intros H. exists x. split; [assumption|apply String.eqb_refl].
Qed.

Lemma packages_loop_assemble names : forall v w,
  packages_loop names v w = (Ok (assemble (isdir_in w) names v), w).
Proof.
  induction names as [|x r IH]; intros v w; [reflexivity|].
  cbn [packages_loop assemble]. unfold bind.
  destruct (in_list (PosixPath.join "packages" x) v); cbn; apply IH.
Qed.

(** The assembled list is its starting list followed by fresh paths of listed
    names, and it has no duplicate when the starting list has none. *)
Lemma assemble_shape isdir names : forall v,
  NoDup v ->
  exists rest,
    assemble isdir names v = (v ++ rest)%list /\
    NoDup (v ++ rest)%list /\
    forall x, In x rest ->
      exists n, In n names /\ x = PosixPath.join "packages" n /\ isdir x = true.
Proof.
  induction names as [|n r IH]; intros v Hv.
  - exists []. rewrite app_nil_r. repeat split; [assumption|intros x []].
  - cbn [assemble].
    destruct (in_list (PosixPath.join "packages" n) v) eqn:Ein; cbn [negb andb].
    + destruct (IH v Hv) as (rest & E & ND & Hr). exists rest.
      repeat split; [assumption|assumption|].
      intros x Hx. destruct (Hr x Hx) as (m & Hm & Hx'). exists m. split; [now right|assumption].
    + destruct (isdir (PosixPath.join "packages" n)) eqn:Ed.
      * assert (Hv' : NoDup (v ++ [PosixPath.join "packages" n])%list).
        { apply NoDup_app; [assumption|repeat constructor; intros []|].
          intros a Ha [<-|[]]. apply in_list_spec in Ha. congruence. }
        destruct (IH _ Hv') as (rest & E & ND & Hr).
        exists (PosixPath.join "packages" n :: rest).
        rewrite <- app_assoc in E, ND. cbn in E, ND.
        repeat split; [assumption|assumption|].
        intros x [<-|Hx].
        -- exists n. repeat split; [now left|assumption].
        -- destruct (Hr x Hx) as (m & Hm & Hx'). exists m. split; [now right|assumption].
      * destruct (IH v Hv) as (rest & E & ND & Hr). exists rest.
        repeat split; [assumption|assumption|].
        intros x Hx. destruct (Hr x Hx) as (m & Hm & Hx'). exists m. split; [now right|assumption].
Qed.

Lemma nodup_app_disjoint (a b : list string) x :
  NoDup (a ++ b)%list -> In x a -> In x b -> False.
Proof.
  induction a as [|y a IH]; intros ND Ha Hb; [contradiction|].
  cbn in ND. inversion ND as [|? ? Hy ND']; subst.
  destruct Ha as [->|Ha]; [|now apply IH].
  apply Hy, in_or_app. now right.
Qed.

Lemma seed_nodup : NoDup seed.
Proof.
  unfold seed. repeat constructor; cbn; intuition discriminate.
Qed.

Lemma packages_run args w names :
  Os.listdir "packages" w = (Ok names, w) ->
  packages args w =
  (Ok (filter (fun x => matches x (args_packages args)) (assembled w names)),
   printed ("Packages:  " ++
            str_join ", " (filter (fun x => matches x (args_packages args))
                         (assembled w names))) w).
Proof.
  intros H. unfold packages, bind. rewrite H, packages_loop_assemble. reflexivity.
Qed.

End SelectorFacts.

(** C1: for every filter string, [packages] returns exactly the members of
    the assembled list that the selection rule of the specification keeps
    (the final segment of the path, after the last slash, contains one of the
    comma-separated terms of the filter as a substring), in the order of the
    assembled list, and the whole assembled list when the filter is empty. *)
Theorem packages_selects_matching (args : Args) (w : World) (names : list string)
  (Hls : Os.listdir "packages" w = (Ok names, w)) :
  exists p w',
    packages_loop names seed w = (Ok (assembled w names), w) /\
    packages args w = (Ok p, w') /\
    p = filter (fun x => matches x (args_packages args)) (assembled w names) /\
    (forall x, In x p <->
               In x (assembled w names) /\ Selected (args_packages args) x) /\
    (args_packages args = "" -> p = assembled w names).
Proof.
  eexists _, _. split; [apply SelectorFacts.packages_loop_assemble|].
  split; [apply (SelectorFacts.packages_run _ _ _ Hls)|].
  split; [reflexivity|]. split.
  - intros x. rewrite filter_In, SelectorFacts.matches_spec. reflexivity.
  - intros E. rewrite E. induction (assembled w names) as [|a l IH]; [reflexivity|].
    cbn [filter]. change (matches a "") with true. cbn iota. now f_equal.
Qed.

Lemma packages_selects_matching_witness :
  exists p w',
    packages_loop ["static"; "cdn"; "README.md"] seed Sample.world =
      (Ok (assembled Sample.world ["static"; "cdn"; "README.md"]), Sample.world) /\
    packages (mkArgs "hub,stat" false false []) Sample.world = (Ok p, w') /\
    p = filter (fun x => matches x "hub,stat")
          (assembled Sample.world ["static"; "cdn"; "README.md"]) /\
    (forall x, In x p <->
               In x (assembled Sample.world ["static"; "cdn"; "README.md"]) /\
               Selected "hub,stat" x) /\
    ("hub,stat" = "" -> p = assembled Sample.world ["static"; "cdn"; "README.md"]).
Proof.
  apply (packages_selects_matching (mkArgs "hub,stat" false false []) Sample.world).
  reflexivity.
Defined.

(** C2: whatever the directory listing, the list [packages] returns starts
    with the seed paths that pass the filter, in the order of the seed list;
    everything after them is a discovered subdirectory of the packages root
    that is not a seed path; and no path occurs twice. *)
Theorem packages_seed_first_nodup (args : Args) (w : World) (names : list string)
  (Hls : Os.listdir "packages" w = (Ok names, w)) :
  exists p w' rest,
    packages args w = (Ok p, w') /\
    p = (filter (fun x => matches x (args_packages args)) seed ++ rest)%list /\
    (forall x, In x rest ->
       ~ In x seed /\ isdir_in w x = true /\
       exists n, In n names /\ x = PosixPath.join "packages" n) /\
    NoDup p.
Proof.
  destruct (SelectorFacts.assemble_shape (isdir_in w) names seed SelectorFacts.seed_nodup)
    as (rest & E & ND & Hr).
  eexists _, _, (filter (fun x => matches x (args_packages args)) rest).
  split; [apply (SelectorFacts.packages_run _ _ _ Hls)|].
  unfold assembled. rewrite E, filter_app. split; [reflexivity|]. split.
  - intros x Hx. apply filter_In in Hx as [Hx _]. split.
    + intros Hs. exact (SelectorFacts.nodup_app_disjoint _ _ _ ND Hs Hx).
    + destruct (Hr x Hx) as (n & Hn & -> & Hd). split; [assumption|]. now exists n.
  - rewrite <- filter_app. now apply NoDup_filter.
Qed.

Lemma packages_seed_first_nodup_witness :
  exists p w' rest,
    packages (mkArgs "s" false false []) Sample.world = (Ok p, w') /\
    p = (filter (fun x => matches x "s") seed ++ rest)%list /\
    (forall x, In x rest ->
       ~ In x seed /\ isdir_in Sample.world x = true /\
       exists n, In n ["static"; "cdn"; "README.md"] /\
                 x = PosixPath.join "packages" n) /\
    NoDup p.
Proof.
  apply (packages_seed_first_nodup (mkArgs "s" false false []) Sample.world).
  reflexivity.
Defined.

(** The scenario of the specification: on a checkout with the five seed
    packages, the filter [hub] selects [smc-hub] alone. *)
Example packages_hub :
  fst (packages (mkArgs "hub" false false []) Sample.world) = Ok ["smc-hub"].
Proof. reflexivity. Qed.

(** C9: a non-empty filter one of whose comma-separated terms is empty (as
    with a trailing comma) makes [matches] true for every package path, so
    that filter keeps every package of any list. *)
Theorem matches_empty_term (f : string) (l : list string)
  (Hne : f <> "") (HT : Terms f l) (Hin : In "" l) :
  (forall package, matches package f = true) /\
  (forall v, filter (fun x => matches x f) v = v).
Proof.
  assert (H : forall package, matches package f = true).
  { intros package. apply SelectorFacts.matches_spec. right.
    exists l, (PyStr.last_item (PyStr.split_on "/" package)), "".
    repeat split; try apply HT; try apply SelectorFacts.final_segment_last;
      [assumption|].
    exists "", (PyStr.last_item (PyStr.split_on "/" package)). reflexivity. }
  split; [assumption|].
  induction v as [|a v IH]; [reflexivity|]. cbn. now rewrite H, IH.
Qed.

Lemma matches_empty_term_witness :
  (forall package, matches package "foo," = true) /\
  (forall v, filter (fun x => matches x "foo,") v = v).
Proof.
  apply (matches_empty_term "foo," ["foo"; ""]).
  - discriminate.
  - repeat split; [discriminate|repeat constructor].
  - right. now left.
Defined.

(** ** Paths *)

Module PathFacts.
Import PyStr PyStrFacts.

Lemma ends_with_app ch c : ends_with ch c = true -> exists c', c = c' ++ String ch "".
Proof.
  induction c as [|a r IH]; [discriminate|].
  destruct r as [|b r'].
  - cbn. intros H. apply Ascii.eqb_eq in H as ->. now exists "".
  - intros H. change (ends_with ch (String b r') = true) in H.
    destruct (IH H) as (c' & E). exists (String a c'). cbn. now rewrite E.
Qed.

Lemma fold_left_snoc {A B} (f : A -> B -> A) l x a :
  fold_left f (l ++ [x])%list a = f (fold_left f l a) x.
Proof. now rewrite fold_left_app. Qed.

Lemma append_assoc a b c : (a ++ b) ++ c = a ++ (b ++ c).
Proof. induction a; cbn; congruence. Qed.

Lemma has_prefix_app p : forall c x,
  (String.length p <= String.length c)%nat -> has_prefix p (c ++ x) = has_prefix p c.
Proof.
  induction p as [|a p IH]; intros c x H; [reflexivity|].
  destruct c as [|b c]; cbn in H; [lia|].
  cbn. rewrite IH; [reflexivity|lia].
Qed.

Lemma with_slash_cases d :
  (Os.with_slash d = d /\ exists d', d = d' ++ "/") \/
  (Os.with_slash d = d ++ "/" /\ ends_with "/" d = false).
Proof.
  unfold Os.with_slash, PosixPath.sep. destruct (ends_with "/" d) eqn:E.
  - left. split; [reflexivity|now apply ends_with_app].
  - right. now split.
Qed.

Lemma join_relative c q :
  c <> "" -> starts_with "/" q = false -> PosixPath.join c q = Os.with_slash c ++ q.
Proof.
  intros Hc Hq. unfold PosixPath.join, Os.with_slash, PosixPath.sep. rewrite Hq.
  destruct c as [|a c]; [congruence|]. cbn [is_empty orb].
  destruct (ends_with "/" (String a c)); [reflexivity|].
  now rewrite append_assoc.
Qed.

Lemma comps_extend initial X q :
  free_of "/" q = true ->
  fold_left (PosixPath.norm_step initial) (split_on "/" (Os.with_slash X ++ q)) [] =
  PosixPath.norm_step initial
    (fold_left (PosixPath.norm_step initial) (split_on "/" X) []) q.
Proof.
  intros Hq.
  destruct (with_slash_cases X) as [(-> & X' & ->)|(-> & _)].
  - rewrite append_assoc. cbn [append]. rewrite !split_app.
    change (split_on "/" "") with [""]. rewrite (split_free_id _ _ Hq).
    now rewrite !fold_left_snoc.
  - rewrite append_assoc. cbn [append]. rewrite split_app, (split_free_id _ _ Hq).
    now rewrite fold_left_snoc.
Qed.

Lemma two_slashes_extend X a t :
  starts_with "/" X = true -> a <> "/"%char ->
  PosixPath.two_slashes (Os.with_slash X ++ String a t) = PosixPath.two_slashes X.
Proof.
  intros Habs Ha. unfold PosixPath.two_slashes.
  destruct X as [|x [|b [|d r]]]; try discriminate;
    cbn [starts_with] in Habs; apply Ascii.eqb_eq in Habs as ->.
  - change (Os.with_slash "/") with "/". cbn [append has_prefix].
    apply Ascii.eqb_neq in Ha. rewrite Ascii.eqb_sym in Ha. rewrite Ha.
    now rewrite andb_false_r.
  - destruct (Ascii.eqb_spec b "/") as [->|Hb].
    + change (Os.with_slash "//") with "//". cbn [append has_prefix].
      apply Ascii.eqb_neq in Ha. rewrite Ascii.eqb_sym in Ha. rewrite Ha.
      rewrite !Ascii.eqb_refl. reflexivity.
    + apply Ascii.eqb_neq in Hb.
      unfold Os.with_slash, PosixPath.sep. cbn [ends_with]. rewrite Hb.
      cbn [append has_prefix].
      rewrite Ascii.eqb_sym in Hb. rewrite Hb. now rewrite !andb_false_r.
  - destruct (with_slash_cases (String "/" (String b (String d r)))) as [(-> & _)|(-> & _)].
    + rewrite !has_prefix_app by (cbn; lia). reflexivity.
    + rewrite !append_assoc. rewrite !has_prefix_app by (cbn; lia). reflexivity.
Qed.

Lemma starts_with_with_slash X q :
  starts_with "/" X = true -> starts_with "/" (Os.with_slash X ++ q) = true.
Proof.
  intros H. destruct (with_slash_cases X) as [(-> & _)|(-> & _)];
    destruct X; try discriminate; exact H.
Qed.

(** [normpath] on an absolute path: the leading slashes, then the
    components the loop keeps, joined by slashes. *)
Lemma normpath_absolute X :
  starts_with "/" X = true ->
  PosixPath.normpath X =
  (if PosixPath.two_slashes X then "//" else "/") ++
  str_join "/" (fold_left (PosixPath.norm_step true) (split_on "/" X) []).
Proof.
  intros H. unfold PosixPath.normpath, PosixPath.sep. rewrite H.
  destruct X as [|x X]; [discriminate|]. cbn [is_empty].
  destruct (PosixPath.two_slashes (String x X)); reflexivity.
Qed.

Lemma normpath_extend X a t :
  starts_with "/" X = true -> a <> "/"%char -> free_of "/" (String a t) = true ->
  PosixPath.normpath (Os.with_slash X ++ String a t) =
  (if PosixPath.two_slashes X then "//" else "/") ++
  str_join "/" (PosixPath.norm_step true
              (fold_left (PosixPath.norm_step true) (split_on "/" X) [])
              (String a t)).
Proof.
  intros H Ha Hf.
  rewrite normpath_absolute by (now apply starts_with_with_slash).
  now rewrite two_slashes_extend, comps_extend.
Qed.

Lemma normpath_join_curdir c :
  PosixPath.isabs c = true ->
  PosixPath.normpath (PosixPath.join c PosixPath.curdir) = PosixPath.normpath c.
Proof.
  intros Habs. unfold PosixPath.isabs, PosixPath.sep in Habs.
  rewrite join_relative; [|destruct c; [discriminate|congruence]|reflexivity].
  unfold PosixPath.curdir.
  rewrite normpath_extend; [|assumption|discriminate|reflexivity].
  now rewrite normpath_absolute.
Qed.
























Lemma abspath_curdir c :
  PosixPath.isabs c = true -> PosixPath.normpath c = c ->
  PosixPath.abspath_from c PosixPath.curdir = c.
Proof.
  intros Ha Hn. unfold PosixPath.abspath_from.
  change (PosixPath.isabs PosixPath.curdir) with false. cbn iota.
  now rewrite normpath_join_curdir.
Qed.

Lemma abspath_normal c h :
  PosixPath.isabs h = true -> PosixPath.normpath h = h ->
  PosixPath.abspath_from c h = h.
Proof. intros Ha Hn. unfold PosixPath.abspath_from. now rewrite Ha. Qed.

End PathFacts.

(** ** The shell executor *)

Module ExecFacts.

Lemma chdir_normal h w :
  PosixPath.isabs h = true -> PosixPath.normpath h = h ->
  Os.chdir h w =
  match Os.lookup (fs w) h with
  | Some Dir => (Ok tt, moved h w)
  | Some File => (Raise (NotADirectoryError h), w)
  | None => (Raise (FileNotFoundError h), w)
  end.
Proof.
  intros Ha Hn. unfold Os.chdir. now rewrite (PathFacts.abspath_normal _ _ Ha Hn).
Qed.

(** A [finally] clause that returns to the directory [h]: either [h] is
    still a directory, the process is back in it and the outcome of the
    body stands, or it is not and the failure of [chdir] is the outcome. *)
Lemma finally_chdir {A} (body : M A) h w r w' :
  PosixPath.isabs h = true -> PosixPath.normpath h = h ->
  try_finally body (Os.chdir h) w = (r, w') ->
  fs w' = fs (snd (body w)) /\ log w' = log (snd (body w)) /\
  ((Os.lookup (fs w') h = Some Dir /\ cwd w' = h /\ r = fst (body w)) \/
   (Os.lookup (fs w') h <> Some Dir /\
    (r = Raise (NotADirectoryError h) \/ r = Raise (FileNotFoundError h)))).
Proof.
  intros Ha Hn. unfold try_finally. destruct (body w) as [rb w1].
  rewrite (chdir_normal _ _ Ha Hn).
  destruct (Os.lookup (fs w1) h) as [[|]|] eqn:E; intros [= <- <-]; cbn;
    (split; [reflexivity|split; [reflexivity|]]).
  - left. now rewrite E.
  - right. rewrite E. split; [discriminate|now left].
  - right. rewrite E. split; [discriminate|now right].
Qed.

Lemma handle_path_run s path verbose w :
  handle_path s path verbose w =
  match path with
  | None => (Ok tt, if verbose then printed s w else w)
  | Some p =>
      match Os.chdir p w with
      | (Ok _, w1) =>
          (Ok tt, if verbose then printed (s ++ " # in '" ++ p ++ "'") w1 else w1)
      | (Raise e, w1) => (Raise e, w1)
      end
  end.
Proof.
  unfold handle_path, bind. destruct path as [p|].
  - destruct (Os.chdir p w) as [[u|e] w1]; [|reflexivity].
    destruct verbose; reflexivity.
  - destruct verbose; reflexivity.
Qed.

Section WithShell.

Variable shell : string -> string -> FS -> ShellOut.

Lemma cmd_unfold s path verbose w :
  wf_cwd w ->
  cmd shell s path verbose w =
  try_finally (cmd_try shell s path verbose) (Os.chdir (cwd w)) w.
Proof.
  intros (Ha & Hn). unfold cmd, bind, Os.abspath.
  now rewrite (PathFacts.abspath_curdir _ Ha Hn).
Qed.

Lemma run_unfold s path verbose w :
  wf_cwd w ->
  run shell s path verbose w =
  try_finally (run_try shell s path verbose) (Os.chdir (cwd w)) w.
Proof.
  intros (Ha & Hn). unfold run, bind, Os.abspath.
  now rewrite (PathFacts.abspath_curdir _ Ha Hn).
Qed.

Lemma cmd_try_run s path verbose w :
  cmd_try shell s path verbose w =
  match handle_path s path verbose w with
  | (Ok _, w1) =>
      (if Z.eqb (status (shell s (cwd w1) (fs w1))) 0
       then Ok tt else Raise (execution_error s),
       after_shell shell s w1)
  | (Raise e, w1) => (Raise e, w1)
  end.
Proof.
  unfold cmd_try, bind. destruct (handle_path s path verbose w) as [[u|e] w1];
    [|reflexivity].
  unfold Os.system, Os.run_shell, bind, ret. cbn.
  destruct (Z.eqb (status (shell s (cwd w1) (fs w1))) 0); reflexivity.
Qed.

Lemma run_try_run s path verbose w :
  run_try shell s path verbose w =
  match handle_path s path verbose w with
  | (Ok _, w1) =>
      let o := shell s (cwd w1) (fs w1) in
      (if Utf8.valid (stdout o)
       then if Z.eqb (status o) 0 then Ok (stdout o) else Raise (execution_error s)
       else Raise UnicodeDecodeError,
       after_shell shell s w1)
  | (Raise e, w1) => (Raise e, w1)
  end.
Proof.
  unfold run_try, bind. destruct (handle_path s path verbose w) as [[u|e] w1];
    [|reflexivity].
  unfold Os.subprocess_run, Os.run_shell, Utf8.decode, ret. cbn.
  destruct (Utf8.valid (stdout (shell s (cwd w1) (fs w1)))); [|reflexivity].
  cbn. destruct (Z.eqb (status (shell s (cwd w1) (fs w1))) 0); reflexivity.
Qed.

Lemma cmd_returns s path verbose w w' :
  wf_cwd w -> cmd shell s path verbose w = (Ok tt, w') ->
  cwd w' = cwd w /\ wf_cwd w'.
Proof.
  intros Hwf E. pose proof Hwf as (Ha & Hn).
  rewrite cmd_unfold in E by assumption.
  destruct (finally_chdir _ _ _ _ _ Ha Hn E) as (_ & _ & [(_ & C & _)|(_ & [F|F])]);
    try discriminate.
  split; [exact C|]. unfold wf_cwd. now rewrite C.
Qed.

Lemma packages_frame args w r w0 :
  packages args w = (r, w0) -> cwd w0 = cwd w /\ fs w0 = fs w.
Proof.
  unfold packages, bind, Os.listdir.
  destruct (Os.lookup (fs w) (PosixPath.abspath_from (cwd w) "packages")) as [[|]|];
    try (intros [= <- <-]; now split).
  rewrite SelectorFacts.packages_loop_assemble. intros [= <- <-]. now split.
Qed.


End WithShell.

End ExecFacts.

(** C3: a call of [cmd] or [run], whatever the command, the path argument and
    the verbose flag, ends in the working directory it started in, both when
    it returns normally and when it raises the execution error; more
    generally it does so on every exit on which the starting directory still
    exists. *)
Theorem cmd_run_restore_cwd (shell : string -> string -> FS -> ShellOut)
  (s : string) (path : option string) (verbose : bool) (w : World)
  (Hwf : wf_cwd w) :
  (forall r w', cmd shell s path verbose w = (r, w') ->
     r = Ok tt \/ r = Raise (execution_error s) -> cwd w' = cwd w) /\
  (forall r w', run shell s path verbose w = (r, w') ->
     (exists out, r = Ok out) \/ r = Raise (execution_error s) -> cwd w' = cwd w) /\
  (forall r w', cmd shell s path verbose w = (r, w') ->
     Os.lookup (fs w') (cwd w) = Some Dir -> cwd w' = cwd w) /\
  (forall r w', run shell s path verbose w = (r, w') ->
     Os.lookup (fs w') (cwd w) = Some Dir -> cwd w' = cwd w).
Proof.
  destruct Hwf as (Ha & Hn). unfold execution_error.
  repeat split; intros r w' E H.
  - rewrite ExecFacts.cmd_unfold in E by (now split).
    destruct (ExecFacts.finally_chdir _ _ _ _ _ Ha Hn E) as (_ & _ & [(_ & C & _)|(_ & [F|F])]);
      [exact C| |]; destruct H as [H|H]; congruence.
  - rewrite ExecFacts.run_unfold in E by (now split).
    destruct (ExecFacts.finally_chdir _ _ _ _ _ Ha Hn E) as (_ & _ & [(_ & C & _)|(_ & [F|F])]);
      [exact C| |]; destruct H as [(out & H)|H]; congruence.
  - rewrite ExecFacts.cmd_unfold in E by (now split).
    destruct (ExecFacts.finally_chdir _ _ _ _ _ Ha Hn E) as (_ & _ & [(_ & C & _)|(N & _)]);
      [exact C|contradiction].
  - rewrite ExecFacts.run_unfold in E by (now split).
    destruct (ExecFacts.finally_chdir _ _ _ _ _ Ha Hn E) as (_ & _ & [(_ & C & _)|(N & _)]);
      [exact C|contradiction].
Qed.

Lemma cmd_run_restore_cwd_witness :
  (forall r w',
     cmd Sample.webapp_fails "npm ci" (Some "smc-webapp") true Sample.world = (r, w') ->
     r = Ok tt \/ r = Raise (execution_error "npm ci") -> cwd w' = "/repo") /\
  (forall r w',
     run Sample.webapp_fails "npm ci" (Some "smc-webapp") true Sample.world = (r, w') ->
     (exists out, r = Ok out) \/ r = Raise (execution_error "npm ci") -> cwd w' = "/repo") /\
  (forall r w',
     cmd Sample.webapp_fails "npm ci" (Some "smc-webapp") true Sample.world = (r, w') ->
     Os.lookup (fs w') "/repo" = Some Dir -> cwd w' = "/repo") /\
  (forall r w',
     run Sample.webapp_fails "npm ci" (Some "smc-webapp") true Sample.world = (r, w') ->
     Os.lookup (fs w') "/repo" = Some Dir -> cwd w' = "/repo").
Proof.
  apply (cmd_run_restore_cwd Sample.webapp_fails "npm ci" (Some "smc-webapp") true
           Sample.world).
  split; reflexivity.
Defined.

(** The two exits of C3 on the sample checkout: the install fails in
    [smc-webapp] and succeeds in [smc-hub]; both calls end in [/repo]. *)
Example cmd_failure_exit :
  cmd Sample.webapp_fails "npm ci" (Some "smc-webapp") true Sample.world =
  (Raise (RuntimeError "Error executing 'npm ci'"),
   mkWorld "/repo" Sample.tree
     [EvPrint "npm ci # in 'smc-webapp'";
      EvShell "npm ci" "/repo/smc-webapp" Sample.tree]).
Proof. reflexivity. Qed.

Example cmd_success_exit :
  cmd Sample.webapp_fails "npm ci" (Some "smc-hub") true Sample.world =
  (Ok tt,
   mkWorld "/repo" Sample.tree
     [EvPrint "npm ci # in 'smc-hub'";
      EvShell "npm ci" "/repo/smc-hub" Sample.tree]).
Proof. reflexivity. Qed.

(** A package directory that does not exist: [chdir] raises before any
    command is run, and the process stays where it was. *)
Example cmd_missing_directory :
  cmd Sample.quiet "npm ci" (Some "smc-project") true Sample.world =
  (Raise (FileNotFoundError "smc-project"), Sample.world).
Proof. reflexivity. Qed.




(** C5 does not hold of the code: [run] decodes the output before it looks
    at the return code, so a command that fails (status 1) after writing a
    byte that is not UTF-8 makes [run] raise the decoding error instead of
    the execution error, whereas [cmd] raises the execution error for the
    same command. *)
Theorem run_failure_masked_by_decoding :
  status (Sample.garbled 1 "cat logo.png" "/repo" Sample.tree) = 1%Z /\
  Utf8.valid (stdout (Sample.garbled 1 "cat logo.png" "/repo" Sample.tree)) = false /\
  fst (run (Sample.garbled 1) "cat logo.png" None true Sample.world) =
    Raise UnicodeDecodeError /\
  fst (cmd (Sample.garbled 1) "cat logo.png" None true Sample.world) =
    Raise (execution_error "cat logo.png").
Proof. repeat split. Qed.

(** ** The parallel mapper *)

(** C6: on the empty list [thread_map] returns the empty list and leaves the
    world as it was, for every function and every worker count: the function
    is not called and no pool is created. With one worker it calls the
    function on the first element, then maps the rest in the world that call
    left, and returns the results in the order of the inputs; an exception
    stops the map at the element that raised it. A function that prints a
    label of its argument shows the order of the calls. *)
Theorem thread_map_empty_and_serial (A B : Type)
  (pool_map : forall A B : Type, Z -> (A -> M B) -> list A -> M (list B)) :
  (forall (callable : A -> M B) nb_threads w,
     thread_map pool_map callable [] nb_threads w = (Ok [], w)) /\
  (forall (callable : A -> M B) x r w,
     thread_map pool_map callable (x :: r) 1 w =
     match callable x w with
     | (Raise e, w1) => (Raise e, w1)
     | (Ok y, w1) =>
         match thread_map pool_map callable r 1 w1 with
         | (Ok ys, w2) => (Ok (y :: ys), w2)
         | (Raise e, w2) => (Raise e, w2)
         end
     end) /\
  (forall (label : A -> string) (f : A -> B) inputs w,
     thread_map pool_map (fun x => print (label x) ;; ret (f x)) inputs 1 w =
     (Ok (map f inputs),
      mkWorld (cwd w) (fs w) (log w ++ map (fun x => EvPrint (label x)) inputs))).
Proof.
  assert (S : forall (callable : A -> M B) l w,
             thread_map pool_map callable l 1 w = list_comp callable l w).
  { intros callable [|x r] w; reflexivity. }
  repeat split.
  - intros callable x r w. rewrite S. cbn [list_comp]. unfold bind.
    destruct (callable x w) as [[y|e] w1]; [|reflexivity].
    rewrite S. destruct (list_comp callable r w1) as [[ys|e] w2]; reflexivity.
  - intros label f inputs w. rewrite S. revert w.
    induction inputs as [|x r IH]; intros w.
    + cbn. unfold ret. rewrite app_nil_r. now destruct w.
    + cbn [list_comp map]. unfold bind at 1 2. unfold print, emit at 1. cbn [ret].
      unfold bind. rewrite IH. cbn. unfold ret. now rewrite <- app_assoc.
Qed.

(** ** The file system and the build loop *)

Module BuildFacts.
Import PyStr PyStrFacts.









Section WithShell.

Variable shell : string -> string -> FS -> ShellOut.




End WithShell.

End BuildFacts.

(** ** The command handlers *)





(** A build of [smc-hub] and [packages/static] on the sample checkout: the
    [dist] of [smc-hub] is removed before
    its build command starts, the [dist] of [packages/static] is still
    there when its build command starts. *)
Example build_trace :
  log (snd (build Sample.quiet (mkArgs "hub,static" false false []) Sample.world)) =
  [EvPrint "Packages:  smc-hub, packages/static";
   EvRmtree "smc-hub/dist";
   EvPrint "time npm run build # in 'smc-hub'";
   EvShell "time npm run build" "/repo/smc-hub"
     (Os.without_tree "/repo/smc-hub/dist" Sample.tree);
   EvPrint "time npm run build # in 'packages/static'";
   EvShell "time npm run build" "/repo/packages/static"
     (Os.without_tree "/repo/smc-hub/dist" Sample.tree)] /\
  Os.lookup (Os.without_tree "/repo/smc-hub/dist" Sample.tree)
    "/repo/packages/static/dist" = Some Dir.
Proof. split; reflexivity. Qed.

(** ** The folders of [clean] *)

Module CleanFacts.



End CleanFacts.



(** The run of [clean] with both flags on the sample checkout, the pool
    running its tasks one after the other: only the two [dist] folders are
    removed, [smc-hub/node_modules] stays. *)
Example clean_both_flags_run :
  let pool := fun (A B : Type) (n : Z) (f : A -> M B) (l : list A) => list_comp f l in
  let w' := snd (clean Sample.quiet pool Sample.both_flags Sample.world) in
  filter (fun e => match e with EvRmtree _ => true | _ => false end) (log w') =
    [EvRmtree "/repo/smc-hub/dist"; EvRmtree "/repo/packages/static/dist"] /\
  Os.lookup (fs w') "/repo/smc-hub/node_modules" = Some Dir /\
  Os.lookup (fs w') "/repo/smc-hub/dist" = None.
Proof. cbv zeta. repeat split; vm_compute; reflexivity. Qed.

(** * Further properties of the script *)

(** ** The filter *)

Module FilterFacts.
Import PyStr PyStrFacts.

Lemma matches_loop_app name a b :
  matches_loop name (a ++ b) = matches_loop name a || matches_loop name b.
Proof.
  induction a as [|t a IH]; [reflexivity|].
  cbn [app matches_loop]. now destruct (contains t name).
Qed.

Lemma free_of_append c a b : free_of c (a ++ b) = free_of c a && free_of c b.
Proof.
  induction a as [|x a IH]; [reflexivity|].
  cbn [append free_of]. rewrite IH. now rewrite andb_assoc.
Qed.

Lemma is_empty_append a b : a <> "" -> is_empty (a ++ b) = false.
Proof. destruct a; [congruence|reflexivity]. Qed.

Lemma last_segment_of_child pre n :
  free_of "/" n = true -> last_item (split_on "/" (pre ++ String "/" n)) = n.
Proof.
  intros H. rewrite split_app, last_item_app, (split_free_id _ _ H);
    [reflexivity|rewrite (split_free_id _ _ H); discriminate].
Qed.

Lemma last_segment_free x : free_of "/" (last_item (split_on "/" x)) = true.
Proof. apply (last_item_split "/" x). Qed.

Lemma assemble_members isdir names : forall v x,
  In x (assemble isdir names v) <->
  In x v \/ exists n, In n names /\ x = PosixPath.join "packages" n /\ isdir x = true.
Proof.
  induction names as [|m r IH]; intros v x.
  - cbn. split; [now left|]. intros [H|(n & [] & _)]. exact H.
  - cbn [assemble]. rewrite IH.
    destruct (in_list (PosixPath.join "packages" m) v) eqn:Ein; cbn [negb andb].
    + split.
      * intros [H|(n & Hn & Hx)]; [now left|]. right. exists n. split; [now right|exact Hx].
      * intros [H|(n & [<-|Hn] & -> & Hd)]; [now left| |].
        -- left. now apply SelectorFacts.in_list_spec.
        -- right. now exists n.
    + destruct (isdir (PosixPath.join "packages" m)) eqn:Ed.
      * split.
        -- intros [H|(n & Hn & Hx)].
           ++ apply in_app_or in H as [H|[<-|[]]]; [now left|].
              right. exists m. repeat split; [now left|exact Ed].
           ++ right. exists n. split; [now right|exact Hx].
        -- intros [H|(n & [<-|Hn] & -> & Hd)].
           ++ left. apply in_or_app. now left.
           ++ left. apply in_or_app. right. now left.
           ++ right. now exists n.
      * split.
        -- intros [H|(n & Hn & Hx)]; [now left|]. right. exists n. split; [now right|exact Hx].
        -- intros [H|(n & [<-|Hn] & -> & Hd)]; [now left|congruence|].
           right. now exists n.
Qed.

End FilterFacts.

(** X1: [matches] looks at the final segment of the package path only: a
    path that ends in a slash-free name [n] after a slash matches a filter
    exactly when [n] alone does. *)
Theorem matches_final_segment_only (pre n f : string)
  (Hn : PyStr.free_of "/" n = true) :
  matches (pre ++ "/" ++ n) f = matches n f.
Proof.
  unfold matches. cbn [append].
  rewrite FilterFacts.last_segment_of_child by assumption.
  now rewrite (PyStrFacts.split_free_id _ _ Hn).
Qed.

Lemma matches_final_segment_only_witness :
  matches ("packages" ++ "/" ++ "cdn") "pack" = matches "cdn" "pack".
Proof. apply (matches_final_segment_only "packages" "cdn" "pack"). reflexivity. Defined.

(** X2: the terms of a filter are alternatives: a package matches two
    filters joined by a comma exactly when it matches one of them (the empty
    filter, on either side, matching everything). *)
Theorem matches_comma_is_or (x f g : string) :
  matches x (f ++ "," ++ g) = matches x f || matches x g.
Proof.
  unfold matches. change ("," ++ g) with (String "," g).
  rewrite PyStrFacts.split_app, FilterFacts.matches_loop_app.
  assert (E : PyStr.is_empty (f ++ String "," g) = false) by (destruct f; reflexivity).
  rewrite E.
  destruct f as [|a f]; cbn [PyStr.is_empty].
  - change (PyStr.split_on "," "") with [""]. cbn [matches_loop].
    now rewrite PyStrFacts.contains_empty.
  - destruct g as [|b g]; cbn [PyStr.is_empty]; [|reflexivity].
    change (PyStr.split_on "," "") with [""]. cbn [matches_loop].
    rewrite PyStrFacts.contains_empty. now rewrite !orb_true_r.
Qed.

(** X3: a filter all of whose terms hold a slash selects nothing: the final
    segment of a path has no slash, so no such term is a substring of it. *)
Theorem matches_never_on_slash_terms (x f : string) (Hf : f <> "")
  (Hterms : forall t, In t (PyStr.split_on "," f) -> PyStr.free_of "/" t = false) :
  matches x f = false.
Proof.
  unfold matches. destruct f as [|a f]; [congruence|]. cbn [PyStr.is_empty].
  rewrite SelectorFacts.matches_loop_existsb.
  apply not_true_is_false. rewrite existsb_exists. intros (t & Hin & Hc).
  apply PyStrFacts.contains_spec in Hc as (pre & post & E).
  pose proof (FilterFacts.last_segment_free x) as Hfree.
  rewrite E, !FilterFacts.free_of_append in Hfree.
  apply andb_prop in Hfree as (_ & Hfree). apply andb_prop in Hfree as (Ht & _).
  rewrite (Hterms t Hin) in Ht. discriminate.
Qed.

Lemma matches_never_on_slash_terms_witness :
  matches "packages/cdn" "packages/cdn" = false.
Proof.
  apply (matches_never_on_slash_terms "packages/cdn" "packages/cdn").
  - discriminate.
  - intros t [<-|[]]. reflexivity.
Defined.

(** X4: what [packages] returns, member by member: a path is returned
    exactly when it passes the filter and is either a seed path (whether or
    not it exists) or the path of a listed name that is a directory. *)
Theorem packages_membership (args : Args) (w : World) (names : list string)
  (Hls : Os.listdir "packages" w = (Ok names, w)) :
  exists p w',
    packages args w = (Ok p, w') /\
    forall x,
      In x p <->
      matches x (args_packages args) = true /\
      (In x seed \/
       exists n, In n names /\ x = PosixPath.join "packages" n /\
                 isdir_in w x = true).
Proof.
  eexists _, _. split; [apply (SelectorFacts.packages_run _ _ _ Hls)|].
  intros x. rewrite filter_In. unfold assembled.
  rewrite FilterFacts.assemble_members. tauto.
Qed.

Lemma packages_membership_witness :
  exists p w',
    packages (mkArgs "cdn,lib" false false []) Sample.world = (Ok p, w') /\
    forall x,
      In x p <->
      matches x "cdn,lib" = true /\
      (In x seed \/
       exists n, In n ["static"; "cdn"; "README.md"] /\
                 x = PosixPath.join "packages" n /\
                 isdir_in Sample.world x = true).
Proof.
  apply (packages_membership (mkArgs "cdn,lib" false false []) Sample.world).
  reflexivity.
Defined.

(** ** The executor, continued *)

Module EffectFacts.


Lemma world_ext a b :
  cwd a = cwd b -> fs a = fs b -> log a = log b -> a = b.
Proof. destruct a, b. cbn. now intros -> -> ->. Qed.

(** The [finally] clause that returns to [h], with the working directory
    on both of its exits. *)
Lemma finally_chdir_cwd {A} (body : M A) h w r w' :
  PosixPath.isabs h = true -> PosixPath.normpath h = h ->
  try_finally body (Os.chdir h) w = (r, w') ->
  fs w' = fs (snd (body w)) /\ log w' = log (snd (body w)) /\
  ((Os.lookup (fs w') h = Some Dir /\ cwd w' = h /\ r = fst (body w)) \/
   (Os.lookup (fs w') h <> Some Dir /\ cwd w' = cwd (snd (body w)) /\
    exists e, r = Raise e)).
Proof.
  intros Ha Hn. unfold try_finally. destruct (body w) as [rb w1].
  rewrite (ExecFacts.chdir_normal _ _ Ha Hn).
  destruct (Os.lookup (fs w1) h) as [[|]|] eqn:E; intros [= <- <-]; cbn;
    (split; [reflexivity|split; [reflexivity|]]).
  - left. now rewrite E.
  - right. rewrite E. repeat split; [discriminate|now eexists].
  - right. rewrite E. repeat split; [discriminate|now eexists].
Qed.

Section WithShell.

Variable shell : string -> string -> FS -> ShellOut.

(** What [handle_path] does: it fails without any effect when the path is
    not a directory, and otherwise moves there and prints when verbose. *)
Lemma handle_path_shape s path verbose w :
  (exists p e, path = Some p /\ isdir_in w p = false /\
               handle_path s path verbose w = (Raise e, w)) \/
  (exists w1, handle_path s path verbose w = (Ok tt, w1) /\
              cwd w1 = target path w /\ fs w1 = fs w /\
              log w1 = (log w ++ announced s path verbose)%list).
Proof.
  rewrite ExecFacts.handle_path_run. destruct path as [p|].
  - unfold Os.chdir, isdir_in.
    destruct (Os.lookup (fs w) (PosixPath.abspath_from (cwd w) p)) as [[|]|] eqn:Ep.
    + right. eexists. split; [reflexivity|].
      destruct verbose; cbn [printed moved cwd fs log announced target];
        rewrite ?app_nil_r; repeat split.
    + left. exists p. eexists. rewrite Ep. repeat split; reflexivity.
    + left. exists p. eexists. rewrite Ep. repeat split; reflexivity.
  - right. eexists. split; [reflexivity|].
    destruct verbose; cbn [printed moved cwd fs log announced target];
      rewrite ?app_nil_r; repeat split.
Qed.

(** A [try] body that runs the command [s] after [handle_path], inside the
    [finally] that returns to the starting directory: either the directory
    change failed and nothing happened, or the command ran once. *)
Lemma guarded_shape {A} (body : M A) (res : ShellOut -> Result A)
  s path verbose w r w' :
  wf_cwd w ->
  body w =
    match handle_path s path verbose w with
    | (Ok _, w1) => (res (shell s (cwd w1) (fs w1)), after_shell shell s w1)
    | (Raise e, w1) => (Raise e, w1)
    end ->
  try_finally body (Os.chdir (cwd w)) w = (r, w') ->
  (exists p e, path = Some p /\ isdir_in w p = false /\ r = Raise e /\ w' = w) \/
  (log w' = (log w ++ announced s path verbose ++
             [EvShell s (target path w) (fs w)])%list /\
   fs w' = fs_after (shell s (target path w) (fs w)) /\
   (Os.lookup (fs w') (cwd w) = Some Dir ->
    cwd w' = cwd w /\ r = res (shell s (target path w) (fs w)))).
Proof.
  intros (Ha & Hn) Hbody E.
  destruct (finally_chdir_cwd _ _ _ _ _ Ha Hn E) as (F & L & D).
  rewrite Hbody in F, L, D.
  destruct (handle_path_shape s path verbose w)
    as [(p & e & -> & Hd & Hh)|(w1 & Hh & C1 & F1 & L1)]; rewrite Hh in F, L, D;
    cbn [fst snd] in F, L, D.
  - left. exists p. destruct D as [(_ & C & ->)|(_ & C & e' & ->)].
    + exists e. repeat split; [assumption|]. now apply world_ext.
    + exists e'. repeat split; [assumption|]. now apply world_ext.
  - right. cbn [after_shell fs log] in F, L. rewrite C1, F1 in F, L, D.
    split; [now rewrite L, L1, app_assoc|]. split; [assumption|].
    intros H. destruct D as [(_ & C & ->)|(N & _)]; [now split|contradiction].
Qed.

Lemma cmd_shape s path verbose w r w' :
  wf_cwd w -> cmd shell s path verbose w = (r, w') ->
  (exists p e, path = Some p /\ isdir_in w p = false /\ r = Raise e /\ w' = w) \/
  (log w' = (log w ++ announced s path verbose ++
             [EvShell s (target path w) (fs w)])%list /\
   fs w' = fs_after (shell s (target path w) (fs w)) /\
   (Os.lookup (fs w') (cwd w) = Some Dir ->
    cwd w' = cwd w /\
    r = if Z.eqb (status (shell s (target path w) (fs w))) 0
        then Ok tt else Raise (execution_error s))).
Proof.
  intros Hwf E. rewrite ExecFacts.cmd_unfold in E by assumption.
  apply (guarded_shape (cmd_try shell s path verbose)
           (fun o => if Z.eqb (status o) 0 then Ok tt else Raise (execution_error s))
           s path verbose w r w' Hwf); [|assumption].
  apply ExecFacts.cmd_try_run.
Qed.

Lemma run_shape s path verbose w r w' :
  wf_cwd w -> run shell s path verbose w = (r, w') ->
  (exists p e, path = Some p /\ isdir_in w p = false /\ r = Raise e /\ w' = w) \/
  (log w' = (log w ++ announced s path verbose ++
             [EvShell s (target path w) (fs w)])%list /\
   fs w' = fs_after (shell s (target path w) (fs w)) /\
   (Os.lookup (fs w') (cwd w) = Some Dir ->
    cwd w' = cwd w /\
    r = let o := shell s (target path w) (fs w) in
        if Utf8.valid (stdout o)
        then if Z.eqb (status o) 0 then Ok (stdout o) else Raise (execution_error s)
        else Raise UnicodeDecodeError)).
Proof.
  intros Hwf E. rewrite ExecFacts.run_unfold in E by assumption.
  apply (guarded_shape (run_try shell s path verbose)
           (fun o => if Utf8.valid (stdout o)
                     then if Z.eqb (status o) 0 then Ok (stdout o)
                          else Raise (execution_error s)
                     else Raise UnicodeDecodeError)
           s path verbose w r w' Hwf); [|assumption].
  apply ExecFacts.run_try_run.
Qed.

End WithShell.

End EffectFacts.





(** ** The serial handlers *)

Module SerialFacts.

Lemma shell_calls_app a b : shell_calls (a ++ b) = (shell_calls a ++ shell_calls b)%list.
Proof. unfold shell_calls. apply flat_map_app. Qed.

Lemma printed_lines_app a b :
  printed_lines (a ++ b) = (printed_lines a ++ printed_lines b)%list.
Proof. unfold printed_lines. apply flat_map_app. Qed.

(** A loop whose body runs the command [s] once in the directory of its
    package, or fails before it does: the commands of the loop are a prefix
    of one command for each package, in order, and all of them when the loop
    returns. *)
Lemma serial_calls (body : string -> M unit) (s : string) :
  (forall p w r w', wf_cwd w -> body p w = (r, w') ->
     exists evs, log w' = (log w ++ evs)%list /\
       (shell_calls evs = [(s, PosixPath.abspath_from (cwd w) p)] \/
        (shell_calls evs = [] /\ r <> Ok tt)) /\
       (r = Ok tt -> cwd w' = cwd w /\ wf_cwd w')) ->
  forall v w r w', wf_cwd w -> for_each body v w = (r, w') ->
    exists evs k, log w' = (log w ++ evs)%list /\
      shell_calls evs = firstn k (map (fun p => (s, PosixPath.abspath_from (cwd w) p)) v) /\
      (r = Ok tt ->
       shell_calls evs = map (fun p => (s, PosixPath.abspath_from (cwd w) p)) v /\
       cwd w' = cwd w).
Proof.
  intros Hbody. induction v as [|p v IH]; intros w r w' Hwf E.
  - injection E as <- <-. exists [], 0. rewrite app_nil_r. repeat split.
  - cbn [for_each] in E. unfold bind in E.
    destruct (body p w) as [[u|e] w1] eqn:E1.
    + destruct (Hbody _ _ _ _ Hwf E1) as (evs1 & L1 & S1 & R1).
      destruct (R1 ltac:(now destruct u)) as (C1 & Hwf1).
      destruct S1 as [S1|(_ & N)]; [|now destruct u].
      destruct (IH _ _ _ Hwf1 E) as (evs2 & k & L2 & S2 & R2).
      exists (evs1 ++ evs2)%list, (S k). split; [|split].
      * rewrite L2, L1. now rewrite app_assoc.
      * rewrite shell_calls_app, S1, S2, C1. reflexivity.
      * intros Hr. destruct (R2 Hr) as (S2' & C2).
        rewrite shell_calls_app, S1, S2', C1. split; [reflexivity|congruence].
    + injection E as <- <-.
      destruct (Hbody _ _ _ _ Hwf E1) as (evs1 & L1 & S1 & _).
      destruct S1 as [S1|(S1 & _)].
      * exists evs1, 1. split; [assumption|]. split; [exact S1|discriminate].
      * exists evs1, 0. split; [assumption|]. split; [exact S1|discriminate].
Qed.

Section WithShell.

Variable shell : string -> string -> FS -> ShellOut.

Lemma cmd_step s p w r w' :
  wf_cwd w -> cmd shell s (Some p) true w = (r, w') ->
  exists evs, log w' = (log w ++ evs)%list /\
    (shell_calls evs = [(s, PosixPath.abspath_from (cwd w) p)] \/
     (shell_calls evs = [] /\ r <> Ok tt)) /\
    (r = Ok tt -> cwd w' = cwd w /\ wf_cwd w').
Proof.
  intros Hwf E.
  assert (R : r = Ok tt -> cwd w' = cwd w /\ wf_cwd w').
  { intros ->. now apply (ExecFacts.cmd_returns shell s (Some p) true). }
  destruct (EffectFacts.cmd_shape _ _ _ _ _ _ _ Hwf E)
    as [(q & e & _ & _ & -> & ->)|(L & _ & _)].
  - exists []. rewrite app_nil_r. split; [reflexivity|]. split; [|assumption].
    right. split; [reflexivity|discriminate].
  - eexists. split; [exact L|]. split; [now left|assumption].
Qed.

Lemma build_step p w r w' :
  wf_cwd w -> build_body shell p w = (r, w') ->
  exists evs, log w' = (log w ++ evs)%list /\
    (shell_calls evs = [("time npm run build", PosixPath.abspath_from (cwd w) p)] \/
     (shell_calls evs = [] /\ r <> Ok tt)) /\
    (r = Ok tt -> cwd w' = cwd w /\ wf_cwd w').
Proof.
  intros Hwf E. unfold build_body, bind in E.
  destruct (negb (String.eqb p "packages/static")).
  - unfold Os.path_exists in E.
    destruct (Os.lookup (fs w)
                (PosixPath.abspath_from (cwd w) (PosixPath.join p "dist"))) as [k|] eqn:Ek.
    + unfold Os.rmtree in E. rewrite Ek in E. destruct k.
      * match type of E with
        | cmd _ _ _ _ ?w1 = _ =>
            destruct (cmd_step _ _ w1 _ _ Hwf E) as (evs & L & S & R)
        end.
        exists (EvRmtree (PosixPath.join p "dist") :: evs). split; [|split].
        -- rewrite L. cbn. now rewrite <- app_assoc.
        -- exact S.
        -- exact R.
      * injection E as <- <-. eexists. split; [reflexivity|].
        split; [right; split; [reflexivity|discriminate]|discriminate].
    + now apply cmd_step.
  - now apply cmd_step.
Qed.

Lemma publish_step p w r w' :
  wf_cwd w -> publish_package shell p w = (r, w') ->
  exists evs, log w' = (log w ++ evs)%list /\
    (shell_calls evs = [("git status .", PosixPath.abspath_from (cwd w) p)] \/
     (shell_calls evs = [] /\ r <> Ok tt)) /\
    (r = Ok tt -> cwd w' = cwd w /\ wf_cwd w').
Proof.
  intros Hwf E. unfold publish_package, bind in E.
  destruct (run shell "git status ." (Some p) true w) as [[out|e] w1] eqn:E1.
  - injection E as <- <-.
    pose proof Hwf as (Ha & Hn).
    assert (C : cwd w1 = cwd w).
    { rewrite ExecFacts.run_unfold in E1 by assumption.
      destruct (ExecFacts.finally_chdir _ _ _ _ _ Ha Hn E1)
        as (_ & _ & [(_ & C & _)|(_ & [F|F])]); [exact C|discriminate|discriminate]. }
    destruct (EffectFacts.run_shape _ _ _ _ _ _ _ Hwf E1)
      as [(q & e & _ & _ & F & _)|(L & _ & _)]; [discriminate|].
    eexists. split; [cbn; rewrite L, <- app_assoc; reflexivity|].
    split; [left; reflexivity|]. intros _. split; [exact C|].
    unfold wf_cwd. cbn. now rewrite C.
  - injection E as <- <-.
    destruct (EffectFacts.run_shape _ _ _ _ _ _ _ Hwf E1)
      as [(q & e' & _ & _ & _ & ->)|(L & _ & _)].
    + exists []. rewrite app_nil_r. split; [reflexivity|].
      split; [right; split; [reflexivity|discriminate]|discriminate].
    + eexists. split; [exact L|]. split; [now left|discriminate].
Qed.

End WithShell.

End SerialFacts.

(** X7: [ci] runs [npm ci], and nothing else, once in the directory of each
    selected package, in the order of the selection, stopping at the first
    call that raises: the commands of a run are a prefix of that list, and
    the whole list when [ci] returns, the process being back where it
    started. *)
Theorem ci_runs_in_order (shell : string -> string -> FS -> ShellOut)
  (args : Args) (w w0 : World) (v : list string)
  (Hwf : wf_cwd w) (Hsel : packages args w = (Ok v, w0)) :
  let all := map (fun p => ("npm ci", PosixPath.abspath_from (cwd w) p)) v in
  exists evs k,
    log (snd (ci shell args w)) = (log w0 ++ evs)%list /\
    shell_calls evs = firstn k all /\
    (fst (ci shell args w) = Ok tt ->
     shell_calls evs = all /\ cwd (snd (ci shell args w)) = cwd w).
Proof.
  intros all. destruct (ExecFacts.packages_frame _ _ _ _ Hsel) as (C0 & _).
  assert (Hwf0 : wf_cwd w0) by (unfold wf_cwd; now rewrite C0).
  unfold ci, bind. rewrite Hsel.
  destruct (for_each (fun path => cmd shell "npm ci" (Some path) true) v w0)
    as [r w'] eqn:E.
  destruct (SerialFacts.serial_calls _ "npm ci"
              (fun p w1 r1 w1' => SerialFacts.cmd_step shell "npm ci" p w1 r1 w1')
              v w0 r w' Hwf0 E) as (evs & k & L & S & R).
  exists evs, k. cbn [fst snd]. subst all. rewrite <- C0. auto.
Qed.

Lemma ci_runs_in_order_witness :
  let all := map (fun p => ("npm ci", PosixPath.abspath_from "/repo" p))
               ["smc-util"; "smc-hub"] in
  exists evs k,
    log (snd (ci Sample.quiet (mkArgs "util,hub" false false []) Sample.world)) =
      (log (printed "Packages:  smc-util, smc-hub" Sample.world) ++ evs)%list /\
    shell_calls evs = firstn k all /\
    (fst (ci Sample.quiet (mkArgs "util,hub" false false []) Sample.world) = Ok tt ->
     shell_calls evs = all /\
     cwd (snd (ci Sample.quiet (mkArgs "util,hub" false false []) Sample.world)) = "/repo").
Proof.
  apply (ci_runs_in_order Sample.quiet (mkArgs "util,hub" false false []) Sample.world
           (printed "Packages:  smc-util, smc-hub" Sample.world)
           ["smc-util"; "smc-hub"]).
  - split; reflexivity.
  - reflexivity.
Defined.

(** X8: [build] runs the build command, and no other command, once in the
    directory of each selected package, in the order of the selection,
    stopping at the first failure (of a removal or of a command). *)
Theorem build_runs_in_order (shell : string -> string -> FS -> ShellOut)
  (args : Args) (w w0 : World) (v : list string)
  (Hwf : wf_cwd w) (Hsel : packages args w = (Ok v, w0)) :
  let all := map (fun p => ("time npm run build", PosixPath.abspath_from (cwd w) p)) v in
  exists evs k,
    log (snd (build shell args w)) = (log w0 ++ evs)%list /\
    shell_calls evs = firstn k all /\
    (fst (build shell args w) = Ok tt ->
     shell_calls evs = all /\ cwd (snd (build shell args w)) = cwd w).
Proof.
  intros all. destruct (ExecFacts.packages_frame _ _ _ _ Hsel) as (C0 & _).
  assert (Hwf0 : wf_cwd w0) by (unfold wf_cwd; now rewrite C0).
  unfold build, bind. rewrite Hsel.
  destruct (for_each (build_body shell) v w0) as [r w'] eqn:E.
  destruct (SerialFacts.serial_calls _ "time npm run build"
              (SerialFacts.build_step shell) v w0 r w' Hwf0 E)
    as (evs & k & L & S & R).
  exists evs, k. cbn [fst snd]. subst all. rewrite <- C0. auto.
Qed.

Lemma build_runs_in_order_witness :
  let all := map (fun p => ("time npm run build", PosixPath.abspath_from "/repo" p))
               ["smc-util"; "smc-hub"] in
  exists evs k,
    log (snd (build Sample.quiet (mkArgs "util,hub" false false []) Sample.world)) =
      (log (printed "Packages:  smc-util, smc-hub" Sample.world) ++ evs)%list /\
    shell_calls evs = firstn k all /\
    (fst (build Sample.quiet (mkArgs "util,hub" false false []) Sample.world) = Ok tt ->
     shell_calls evs = all /\
     cwd (snd (build Sample.quiet (mkArgs "util,hub" false false []) Sample.world)) = "/repo").
Proof.
  apply (build_runs_in_order Sample.quiet (mkArgs "util,hub" false false [])
           Sample.world (printed "Packages:  smc-util, smc-hub" Sample.world)
           ["smc-util"; "smc-hub"]).
  - split; reflexivity.
  - reflexivity.
Defined.

(** X9: [publish] is a stub: the only commands it runs are [git status .],
    once in the directory of each selected package, in order, up to the
    first failure; it runs no [npm] command and no other [git] command. *)
Theorem publish_only_runs_git_status (shell : string -> string -> FS -> ShellOut)
  (args : Args) (w w0 : World) (v : list string)
  (Hwf : wf_cwd w) (Hsel : packages args w = (Ok v, w0)) :
  let all := map (fun p => ("git status .", PosixPath.abspath_from (cwd w) p)) v in
  exists evs k,
    log (snd (publish shell args w)) = (log w0 ++ evs)%list /\
    shell_calls evs = firstn k all /\
    (fst (publish shell args w) = Ok tt ->
     shell_calls evs = all /\ cwd (snd (publish shell args w)) = cwd w).
Proof.
  intros all. destruct (ExecFacts.packages_frame _ _ _ _ Hsel) as (C0 & _).
  assert (Hwf0 : wf_cwd w0) by (unfold wf_cwd; now rewrite C0).
  unfold publish, bind. rewrite Hsel.
  destruct (for_each (publish_package shell) v w0) as [r w'] eqn:E.
  destruct (SerialFacts.serial_calls _ "git status ."
              (SerialFacts.publish_step shell) v w0 r w' Hwf0 E)
    as (evs & k & L & S & R).
  exists evs, k. cbn [fst snd]. subst all. rewrite <- C0. auto.
Qed.

Lemma publish_only_runs_git_status_witness :
  let all := map (fun p => ("git status .", PosixPath.abspath_from "/repo" p))
               ["smc-util"; "smc-hub"] in
  exists evs k,
    log (snd (publish Sample.quiet (mkArgs "util,hub" false false []) Sample.world)) =
      (log (printed "Packages:  smc-util, smc-hub" Sample.world) ++ evs)%list /\
    shell_calls evs = firstn k all /\
    (fst (publish Sample.quiet (mkArgs "util,hub" false false []) Sample.world) = Ok tt ->
     shell_calls evs = all /\
     cwd (snd (publish Sample.quiet (mkArgs "util,hub" false false []) Sample.world)) = "/repo").
Proof.
  apply (publish_only_runs_git_status Sample.quiet (mkArgs "util,hub" false false [])
           Sample.world (printed "Packages:  smc-util, smc-hub" Sample.world)
           ["smc-util"; "smc-hub"]).
  - split; reflexivity.
  - reflexivity.
Defined.

(** ** The git handlers *)

Module GitFacts.

Lemma chars_append a b c :
  In c (list_ascii_of_string (a ++ b)) <->
  In c (list_ascii_of_string a) \/ In c (list_ascii_of_string b).
Proof.
  induction a as [|x a IH]; cbn; [tauto|]. rewrite IH. tauto.
Qed.

Lemma ws_len_space a r : PyWs.ascii_space a = true -> PyWs.ws_len (String a r) = 1.
Proof. intros H. cbn [PyWs.ws_len]. now rewrite H. Qed.

Lemma ws_len_zero a r : PyWs.ws_len (String a r) = 0 -> PyWs.ascii_space a = false.
Proof.
  cbn [PyWs.ws_len]. destruct (PyWs.ascii_space a); [discriminate|reflexivity].
Qed.

(** A byte below 128 that is not whitespace never starts a whitespace
    character, whatever follows it. *)
Lemma ws_len_plain a r :
  PyWs.ascii_space a = false -> N.ltb (PyWs.code a) 128 = true ->
  PyWs.ws_len (String a r) = 0.
Proof.
  intros Hs Hc. apply N.ltb_lt in Hc. cbn [PyWs.ws_len]. rewrite Hs.
  destruct r as [|b r]; [reflexivity|].
  destruct (N.eqb_spec (PyWs.code a) 194) as [E|_]; [lia|].
  destruct r as [|c r]; [reflexivity|].
  destruct (N.eqb_spec (PyWs.code a) 225) as [E|_]; [lia|].
  destruct (N.eqb_spec (PyWs.code a) 226) as [E|_]; [lia|].
  destruct (N.eqb_spec (PyWs.code a) 227) as [E|_]; [lia|].
  reflexivity.
Qed.

Lemma split_go_plain skip cur s :
  (forall c, In c (list_ascii_of_string cur) -> PyWs.ascii_space c = false) ->
  Forall plain_token (PyWs.split_go skip cur s).
Proof.
  revert skip cur. induction s as [|a r IH]; intros skip cur Hcur.
  - cbn. destruct cur as [|x cur]; cbn; [constructor|].
    repeat constructor; [discriminate|exact Hcur].
  - cbn [PyWs.split_go]. destruct skip as [|k]; [|now apply IH].
    destruct (PyWs.ws_len (String a r)) as [|k] eqn:E.
    + apply IH. intros c Hc. apply chars_append in Hc as [Hc|[<-|[]]];
        [now apply Hcur|now apply (ws_len_zero _ r)].
    + apply Forall_app. split; [|apply IH; intros c []].
      destruct cur as [|x cur]; cbn; [constructor|].
      repeat constructor; [discriminate|exact Hcur].
Qed.

Lemma split_plain s : Forall plain_token (PyWs.split s).
Proof. apply split_go_plain. intros c []. Qed.

Lemma split_go_word t : forall cur rest,
  (forall c, In c (list_ascii_of_string t) ->
     PyWs.ascii_space c = false /\ N.ltb (PyWs.code c) 128 = true) ->
  PyWs.split_go 0 cur (t ++ rest) = PyWs.split_go 0 (cur ++ t) rest.
Proof.
  induction t as [|a t IH]; intros cur rest Ht.
  - cbn [append]. clear. revert cur.
    assert (E : forall cur, cur ++ "" = cur) by (induction cur; cbn; congruence).
    intros cur. now rewrite E.
  - cbn [append]. cbn [PyWs.split_go].
    destruct (Ht a (or_introl eq_refl)) as (Hs & Hc).
    rewrite (ws_len_plain _ _ Hs Hc). rewrite IH.
    + f_equal. clear. induction cur; cbn; congruence.
    + intros c Hin. apply Ht. now right.
Qed.

Section WithShell.

Variable shell : string -> string -> FS -> ShellOut.

Lemma run_returns s path verbose w out w1 :
  wf_cwd w -> run shell s path verbose w = (Ok out, w1) ->
  let o := shell s (target path w) (fs w) in
  out = stdout o /\ status o = 0%Z /\
  log w1 = (log w ++ announced s path verbose ++ [EvShell s (target path w) (fs w)])%list /\
  fs w1 = fs_after o /\ cwd w1 = cwd w /\ wf_cwd w1.
Proof.
  intros Hwf E o. pose proof Hwf as (Ha & Hn).
  assert (D : Os.lookup (fs w1) (cwd w) = Some Dir /\ cwd w1 = cwd w).
  { pose proof E as E'. rewrite ExecFacts.run_unfold in E' by assumption.
    destruct (ExecFacts.finally_chdir _ _ _ _ _ Ha Hn E')
      as (_ & _ & [(D & C & _)|(_ & [F|F])]); [now split|discriminate|discriminate]. }
  destruct D as (D & C).
  destruct (EffectFacts.run_shape _ _ _ _ _ _ _ Hwf E)
    as [(q & e & _ & _ & F & _)|(L & F & R)]; [discriminate|].
  destruct (R D) as (_ & Hr). cbn zeta in Hr. fold o in Hr.
  destruct (Utf8.valid (stdout o)); [|discriminate].
  destruct (Z.eqb (status o) 0) eqn:Ez; [|discriminate].
  injection Hr as ->. apply Z.eqb_eq in Ez.
  repeat split; try assumption; now rewrite C.
Qed.

Lemma cmd_ok s path verbose w w1 :
  wf_cwd w -> cmd shell s path verbose w = (Ok tt, w1) ->
  log w1 = (log w ++ announced s path verbose ++ [EvShell s (target path w) (fs w)])%list /\
  cwd w1 = cwd w /\ wf_cwd w1.
Proof.
  intros Hwf E.
  destruct (ExecFacts.cmd_returns _ _ _ _ _ _ Hwf E) as (C & W).
  destruct (EffectFacts.cmd_shape _ _ _ _ _ _ _ Hwf E)
    as [(q & e & _ & _ & F & _)|(L & _ & _)]; [discriminate|].
  split; [exact L|]. split; [exact C|exact W].
Qed.

(** The two commands of [package_status] and [package_diff], [mk] building
    the second from the commit. *)
Lemma blame_then_diff (mk : string -> string) p w w' :
  wf_cwd w ->
  (c <- last_commit_when_version_changed shell p ;;
   match c with
   | Some commit => cmd shell (mk commit) (Some p) false ;; ret (Some tt)
   | None => ret None
   end)%py w = (Ok (Some tt), w') ->
  exists commit rest,
    let d := PosixPath.abspath_from (cwd w) p in
    let o := shell blame_command d (fs w) in
    PyWs.split (stdout o) = commit :: rest /\ plain_token commit /\
    status o = 0%Z /\
    log w' = (log w ++ [EvShell blame_command d (fs w);
                        EvShell (mk commit) d (fs_after o)])%list /\
    cwd w' = cwd w.
Proof.
  intros Hwf E. unfold last_commit_when_version_changed, bind in E.
  destruct (run shell blame_command (Some p) false w) as [[out|e] w1] eqn:E1;
    [|discriminate].
  destruct (run_returns _ _ _ _ _ _ Hwf E1) as (-> & Hz & L1 & F1 & C1 & Hwf1).
  cbn [ret] in E.
  destruct (PyWs.split (stdout (shell blame_command (target (Some p) w) (fs w))))
    as [|commit rest] eqn:Es; [discriminate|].
  cbn [PyWs.first_item] in E.
  destruct (cmd shell (mk commit) (Some p) false w1) as [[u|e] w2] eqn:E2;
    [|discriminate].
  injection E as <-. destruct u.
  destruct (cmd_ok _ _ _ _ _ Hwf1 E2) as (L2 & C2 & _).
  exists commit, rest. cbn zeta. cbn [target] in *.
  split; [exact Es|]. split.
  - pose proof (split_plain (stdout (shell blame_command
                                       (PosixPath.abspath_from (cwd w) p) (fs w)))) as P.
    rewrite Es in P. now inversion P.
  - split; [exact Hz|]. split; [|congruence].
    rewrite L2, L1, C1, F1. cbn [announced app]. now rewrite <- app_assoc.
Qed.

(** The trace of one package of [status] or [diff], whatever the outcome:
    nothing printed, and no command but the blame pipeline and the one [mk]
    builds from a plain token. *)
Lemma blame_then_diff_quiet (mk : string -> string) p w r w' :
  wf_cwd w ->
  (c <- last_commit_when_version_changed shell p ;;
   match c with
   | Some commit => cmd shell (mk commit) (Some p) false ;; ret (Some tt)
   | None => ret None
   end)%py w = (r, w') ->
  exists evs,
    log w' = (log w ++ evs)%list /\ printed_lines evs = [] /\
    Forall (fun c => fst c = blame_command \/
                     exists t, plain_token t /\ fst c = mk t) (shell_calls evs) /\
    (r = Ok (Some tt) -> wf_cwd w' /\ cwd w' = cwd w).
Proof.
  intros Hwf E. unfold last_commit_when_version_changed, bind in E.
  destruct (run shell blame_command (Some p) false w) as [[out|e] w1] eqn:E1.
  - destruct (run_returns _ _ _ _ _ _ Hwf E1) as (-> & Hz & L1 & F1 & C1 & Hwf1).
    cbn [ret] in E. cbn [announced app] in L1.
    destruct (PyWs.split (stdout (shell blame_command (target (Some p) w) (fs w))))
      as [|commit rest] eqn:Es; cbn [PyWs.first_item] in E.
    + injection E as <- <-. eexists. split; [exact L1|]. split; [reflexivity|].
      split; [apply Forall_cons; [now left|constructor]|discriminate].
    + assert (P : plain_token commit).
      { pose proof (split_plain (stdout (shell blame_command
                                           (target (Some p) w) (fs w)))) as P.
        rewrite Es in P. now inversion P. }
      destruct (cmd shell (mk commit) (Some p) false w1) as [[u|e] w2] eqn:E2.
      * injection E as <- <-. destruct u.
        destruct (cmd_ok _ _ _ _ _ Hwf1 E2) as (L2 & C2 & W2).
        cbn [announced app] in L2. eexists. split.
        -- rewrite L2, L1, <- app_assoc. reflexivity.
        -- split; [reflexivity|]. split; [|intros _; split; [assumption|congruence]].
           apply Forall_cons; [now left|].
           apply Forall_cons; [right; now exists commit|constructor].
      * injection E as <- <-.
        destruct (EffectFacts.cmd_shape _ _ _ _ _ _ _ Hwf1 E2)
          as [(q & e' & _ & _ & _ & ->)|(L2 & _ & _)].
        -- eexists. split; [exact L1|]. split; [reflexivity|].
           split; [apply Forall_cons; [now left|constructor]|discriminate].
        -- cbn [announced app] in L2. eexists. split.
           ++ rewrite L2, L1, <- app_assoc. reflexivity.
           ++ split; [reflexivity|]. split; [|discriminate].
              apply Forall_cons; [now left|].
           apply Forall_cons; [right; now exists commit|constructor].
  - injection E as <- <-.
    destruct (EffectFacts.run_shape _ _ _ _ _ _ _ Hwf E1)
      as [(q & e' & _ & _ & _ & ->)|(L1 & _ & _)].
    + exists []. rewrite app_nil_r. repeat split; [constructor|discriminate|discriminate].
    + cbn [announced app] in L1. eexists. split; [exact L1|]. split; [reflexivity|].
      split; [apply Forall_cons; [now left|constructor]|discriminate].
Qed.

Lemma indexed_loop_quiet (body : string -> M (option unit))
  (shape : string * string -> Prop) :
  (forall p w r w', wf_cwd w -> body p w = (r, w') ->
     exists evs, log w' = (log w ++ evs)%list /\ printed_lines evs = [] /\
       Forall shape (shell_calls evs) /\
       (r = Ok (Some tt) -> wf_cwd w' /\ cwd w' = cwd w)) ->
  forall v w r w', wf_cwd w -> for_each_indexed body v w = (r, w') ->
    exists evs, log w' = (log w ++ evs)%list /\ printed_lines evs = [] /\
      Forall shape (shell_calls evs).
Proof.
  intros Hbody. induction v as [|p v IH]; intros w r w' Hwf E.
  - injection E as <- <-. exists []. rewrite app_nil_r. repeat split. constructor.
  - cbn [for_each_indexed] in E. unfold bind in E.
    destruct (body p w) as [[[u|]|e] w1] eqn:E1.
    + destruct (Hbody _ _ _ _ Hwf E1) as (evs1 & L1 & P1 & S1 & R1).
      destruct (R1 ltac:(now destruct u)) as (Hwf1 & _).
      destruct (IH _ _ _ Hwf1 E) as (evs2 & L2 & P2 & S2).
      exists (evs1 ++ evs2)%list. split; [rewrite L2, L1; now rewrite app_assoc|].
      rewrite SerialFacts.printed_lines_app, SerialFacts.shell_calls_app, P1, P2.
      split; [reflexivity|]. apply Forall_app. now split.
    + injection E as <- <-.
      destruct (Hbody _ _ _ _ Hwf E1) as (evs1 & L1 & P1 & S1 & _). now exists evs1.
    + injection E as <- <-.
      destruct (Hbody _ _ _ _ Hwf E1) as (evs1 & L1 & P1 & S1 & _). now exists evs1.
Qed.

End WithShell.

End GitFacts.

(** X10: the tokens of [s.split()] are never empty and hold no one-byte
    whitespace (blank, tab, line break and the like), so a commit taken
    from the blame output is one word on a command line. *)
Theorem split_tokens_are_plain (s : string) : Forall plain_token (PyWs.split s).
Proof. apply GitFacts.split_plain. Qed.

(** X11: [split()] undoes a join with single blanks: words that are not
    empty and made of bytes below 128 that are not whitespace come back as
    they were joined. *)
Theorem split_of_joined_words (ts : list string)
  (Hwords : forall t, In t ts ->
     t <> "" /\
     forall c, In c (list_ascii_of_string t) ->
       PyWs.ascii_space c = false /\ N.ltb (PyWs.code c) 128 = true) :
  PyWs.split (PyStr.str_join " " ts) = ts.
Proof.
  unfold PyWs.split. induction ts as [|t [|u r] IH].
  - reflexivity.
  - destruct (Hwords t (or_introl eq_refl)) as (Hne & Hc).
    cbn [PyStr.str_join String.concat].
    replace t with (t ++ "") at 1 by (clear; induction t; cbn; congruence).
    rewrite GitFacts.split_go_word by assumption. cbn [append PyWs.split_go].
    destruct t; [congruence|reflexivity].
  - destruct (Hwords t (or_introl eq_refl)) as (Hne & Hc).
    rewrite PyStrFacts.join_cons. rewrite GitFacts.split_go_word by assumption.
    cbn [append]. cbn [PyWs.split_go].
    change (PyWs.ws_len (String " " (PyStr.str_join " " (u :: r)))) with 1.
    cbn beta iota. rewrite IH by (intros x Hx; apply Hwords; now right).
    destruct t; [congruence|reflexivity].
Qed.

Lemma split_of_joined_words_witness :
  PyWs.split (PyStr.str_join " " ["9f3c2ab1"; "(dev"; "3)"]) = ["9f3c2ab1"; "(dev"; "3)"].
Proof.
  apply (split_of_joined_words ["9f3c2ab1"; "(dev"; "3)"]).
  intros t [<-|[<-|[<-|[]]]]; (split; [discriminate|]);
    intros c Hc; cbn in Hc;
    repeat (destruct Hc as [<-|Hc]; [split; reflexivity|]); contradiction.
Defined.

(** X12: a successful [package_status] or [package_diff] ran two commands in
    the directory of the package, and printed nothing: the blame pipeline,
    which exited with status zero, then [git diff] from the commit that is
    the first token of the output of the pipeline; the process is back in
    its starting directory. *)
Theorem package_status_and_diff_trace (shell : string -> string -> FS -> ShellOut)
  (p : string) (w : World) (Hwf : wf_cwd w) :
  let d := PosixPath.abspath_from (cwd w) p in
  let o := shell blame_command d (fs w) in
  (forall w', package_status shell p w = (Ok (Some tt), w') ->
     exists commit rest,
       PyWs.split (stdout o) = commit :: rest /\ plain_token commit /\
       status o = 0%Z /\
       log w' = (log w ++
                 [EvShell blame_command d (fs w);
                  EvShell ("git diff  --name-status " ++ commit ++ " .") d
                    (fs_after o)])%list /\
       cwd w' = cwd w) /\
  (forall w', package_diff shell p w = (Ok (Some tt), w') ->
     exists commit rest,
       PyWs.split (stdout o) = commit :: rest /\ plain_token commit /\
       status o = 0%Z /\
       log w' = (log w ++
                 [EvShell blame_command d (fs w);
                  EvShell ("git diff  " ++ commit ++ " .") d (fs_after o)])%list /\
       cwd w' = cwd w).
Proof.
  intros d o. split; intros w' E.
  - exact (GitFacts.blame_then_diff shell
             (fun commit => "git diff  --name-status " ++ commit ++ " .") p w w' Hwf E).
  - exact (GitFacts.blame_then_diff shell
             (fun commit => "git diff  " ++ commit ++ " .") p w w' Hwf E).
Qed.

Lemma package_status_and_diff_trace_witness :
  let d := PosixPath.abspath_from "/repo" "smc-hub" in
  let o := SampleGit.blames blame_command d Sample.tree in
  (forall w', package_status SampleGit.blames "smc-hub" Sample.world = (Ok (Some tt), w') ->
     exists commit rest,
       PyWs.split (stdout o) = commit :: rest /\ plain_token commit /\
       status o = 0%Z /\
       log w' = (log Sample.world ++
                 [EvShell blame_command d Sample.tree;
                  EvShell ("git diff  --name-status " ++ commit ++ " .") d
                    (fs_after o)])%list /\
       cwd w' = "/repo") /\
  (forall w', package_diff SampleGit.blames "smc-hub" Sample.world = (Ok (Some tt), w') ->
     exists commit rest,
       PyWs.split (stdout o) = commit :: rest /\ plain_token commit /\
       status o = 0%Z /\
       log w' = (log Sample.world ++
                 [EvShell blame_command d Sample.tree;
                  EvShell ("git diff  " ++ commit ++ " .") d (fs_after o)])%list /\
       cwd w' = "/repo").
Proof.
  apply (package_status_and_diff_trace SampleGit.blames "smc-hub" Sample.world).
  split; reflexivity.
Defined.

(** The run behind X12 on the sample checkout. *)
Example status_of_smc_hub :
  fst (status_handler SampleGit.blames (mkArgs "hub" false false []) Sample.world) =
    Ok (Some tt) /\
  shell_calls
    (log (snd (status_handler SampleGit.blames (mkArgs "hub" false false [])
                 Sample.world))) =
    [(blame_command, "/repo/smc-hub");
     ("git diff  --name-status 9f3c2ab1 .", "/repo/smc-hub")].
Proof. split; reflexivity. Qed.

(** X13: when the blame pipeline returns output without any token (only
    whitespace, or nothing), [package_status] and [package_diff] raise the
    [IndexError] of [split()[0]] right after it: no [git diff] is run, and
    the loops of [status] and [diff] stop at that package. *)
Theorem blank_blame_is_index_error (shell : string -> string -> FS -> ShellOut)
  (p out : string) (w w1 : World)
  (Hrun : run shell blame_command (Some p) false w = (Ok out, w1))
  (Hblank : PyWs.split out = []) :
  package_status shell p w = (Ok None, w1) /\
  package_diff shell p w = (Ok None, w1) /\
  forall rest,
    for_each_indexed (package_status shell) (p :: rest) w = (Ok None, w1) /\
    for_each_indexed (package_diff shell) (p :: rest) w = (Ok None, w1).
Proof.
  assert (S : package_status shell p w = (Ok None, w1)).
  { unfold package_status, last_commit_when_version_changed, bind.
    rewrite Hrun. cbn [ret]. now rewrite Hblank. }
  assert (D : package_diff shell p w = (Ok None, w1)).
  { unfold package_diff, last_commit_when_version_changed, bind.
    rewrite Hrun. cbn [ret]. now rewrite Hblank. }
  split; [assumption|]. split; [assumption|].
  intros rest. cbn [for_each_indexed]. unfold bind. now rewrite S, D.
Qed.

Lemma blank_blame_is_index_error_witness :
  let w1 := mkWorld "/repo" Sample.tree
              [EvShell blame_command "/repo/smc-hub" Sample.tree] in
  package_status SampleGit.blank "smc-hub" Sample.world = (Ok None, w1) /\
  package_diff SampleGit.blank "smc-hub" Sample.world = (Ok None, w1) /\
  forall rest,
    for_each_indexed (package_status SampleGit.blank) ("smc-hub" :: rest) Sample.world =
      (Ok None, w1) /\
    for_each_indexed (package_diff SampleGit.blank) ("smc-hub" :: rest) Sample.world =
      (Ok None, w1).
Proof.
  apply (blank_blame_is_index_error SampleGit.blank "smc-hub" " " Sample.world);
    reflexivity.
Defined.

(** X14: [status] and [diff] print nothing after the list of packages, and
    whatever happens the only commands they run are the blame pipeline and
    [git diff] (with [--name-status] for [status]) from a plain token. *)
Theorem status_diff_quiet (shell : string -> string -> FS -> ShellOut)
  (args : Args) (w w0 : World) (v : list string)
  (Hwf : wf_cwd w) (Hsel : packages args w = (Ok v, w0)) :
  (exists evs,
     log (snd (status_handler shell args w)) = (log w0 ++ evs)%list /\
     printed_lines evs = [] /\
     Forall (fun c => fst c = blame_command \/
                      exists t, plain_token t /\
                                fst c = "git diff  --name-status " ++ t ++ " .")
       (shell_calls evs)) /\
  (exists evs,
     log (snd (diff shell args w)) = (log w0 ++ evs)%list /\
     printed_lines evs = [] /\
     Forall (fun c => fst c = blame_command \/
                      exists t, plain_token t /\ fst c = "git diff  " ++ t ++ " .")
       (shell_calls evs)).
Proof.
  destruct (ExecFacts.packages_frame _ _ _ _ Hsel) as (C0 & _).
  assert (Hwf0 : wf_cwd w0) by (unfold wf_cwd; now rewrite C0).
  split.
  - unfold status_handler, bind. rewrite Hsel.
    destruct (for_each_indexed (package_status shell) v w0) as [r w'] eqn:E.
    exact (GitFacts.indexed_loop_quiet (package_status shell) _
             (fun p w1 r1 w1' =>
                GitFacts.blame_then_diff_quiet shell
                  (fun t => "git diff  --name-status " ++ t ++ " .") p w1 r1 w1')
             v w0 r w' Hwf0 E).
  - unfold diff, bind. rewrite Hsel.
    destruct (for_each_indexed (package_diff shell) v w0) as [r w'] eqn:E.
    exact (GitFacts.indexed_loop_quiet (package_diff shell) _
             (fun p w1 r1 w1' =>
                GitFacts.blame_then_diff_quiet shell
                  (fun t => "git diff  " ++ t ++ " .") p w1 r1 w1')
             v w0 r w' Hwf0 E).
Qed.

Lemma status_diff_quiet_witness :
  let args := mkArgs "util,hub" false false [] in
  let w0 := printed "Packages:  smc-util, smc-hub" Sample.world in
  (exists evs,
     log (snd (status_handler SampleGit.blames args Sample.world)) = (log w0 ++ evs)%list /\
     printed_lines evs = [] /\
     Forall (fun c => fst c = blame_command \/
                      exists t, plain_token t /\
                                fst c = "git diff  --name-status " ++ t ++ " .")
       (shell_calls evs)) /\
  (exists evs,
     log (snd (diff SampleGit.blames args Sample.world)) = (log w0 ++ evs)%list /\
     printed_lines evs = [] /\
     Forall (fun c => fst c = blame_command \/
                      exists t, plain_token t /\ fst c = "git diff  " ++ t ++ " .")
       (shell_calls evs)).
Proof.
  apply (status_diff_quiet SampleGit.blames (mkArgs "util,hub" false false [])
           Sample.world (printed "Packages:  smc-util, smc-hub" Sample.world)
           ["smc-util"; "smc-hub"]).
  - split; reflexivity.
  - reflexivity.
Defined.

(** ** The handlers at the edges of the selection *)

Module HandlerFacts.

Lemma banner_run s w :
  banner s w = (Ok tt, mkWorld (cwd w) (fs w) (log w ++ banner_lines s)).
Proof.
  unfold banner, bind, print, emit, banner_lines. cbn.
  now rewrite <- !app_assoc.
Qed.

Lemma abspath_all v w :
  list_comp Os.abspath v w = (Ok (map (PosixPath.abspath_from (cwd w)) v), w).
Proof.
  induction v as [|p v IH]; [reflexivity|].
  cbn [list_comp map]. unfold bind. unfold Os.abspath at 1. now rewrite IH.
Qed.

Lemma filter_none {A} (f : A -> bool) l :
  (forall y, In y l -> f y = false) -> filter f l = [].
Proof.
  induction l as [|a l IH]; intros H; [reflexivity|].
  cbn. rewrite (H a (or_introl eq_refl)). apply IH. intros y Hy. apply H. now right.
Qed.

Lemma clean_inner_run path folders : forall paths w,
  clean_inner path folders paths w =
  (Ok (paths ++
       filter (exists_in w)
         (map (fun x => PosixPath.abspath_from (cwd w) (PosixPath.join path x)) folders))%list,
   w).
Proof.
  induction folders as [|x r IH]; intros paths w.
  - cbn. now rewrite app_nil_r.
  - cbn [clean_inner map filter]. unfold bind, Os.abspath, Os.path_exists.
    rewrite IH. unfold exists_in at 2.
    destruct (Os.lookup (fs w)
                (PosixPath.abspath_from (cwd w)
                   (PosixPath.abspath_from (cwd w) (PosixPath.join path x))));
      [now rewrite <- app_assoc|reflexivity].
Qed.

Lemma clean_outer_run v folders : forall paths w,
  clean_outer v folders paths w =
  (Ok (paths ++
       filter (exists_in w)
         (flat_map (fun p => map (fun x => PosixPath.abspath_from (cwd w)
                                             (PosixPath.join p x)) folders) v))%list,
   w).
Proof.
  induction v as [|p v IH]; intros paths w.
  - cbn. now rewrite app_nil_r.
  - cbn [clean_outer flat_map]. unfold bind. rewrite clean_inner_run, IH.
    now rewrite filter_app, app_assoc.
Qed.

End HandlerFacts.

(** X15: without a packages root (the script started from the wrong
    directory) [packages] raises the error of [os.listdir], and every
    handler that selects packages raises it too and leaves the process as it
    was: nothing is printed, no command is run and no pool is created, even
    when the filter names seed packages only. *)
Theorem handlers_without_packages_root
  (shell : string -> string -> FS -> ShellOut)
  (pool_map : forall A B : Type, Z -> (A -> M B) -> list A -> M (list B))
  (args : Args) (w : World)
  (Hroot : Os.lookup (fs w) (PosixPath.abspath_from (cwd w) "packages") = None) :
  packages args w = (Raise (FileNotFoundError "packages"), w) /\
  ci shell args w = (Raise (FileNotFoundError "packages"), w) /\
  build shell args w = (Raise (FileNotFoundError "packages"), w) /\
  clean shell pool_map args w = (Raise (FileNotFoundError "packages"), w) /\
  npm shell pool_map args w = (Raise (FileNotFoundError "packages"), w) /\
  publish shell args w = (Raise (FileNotFoundError "packages"), w) /\
  status_handler shell args w = (Raise (FileNotFoundError "packages"), w) /\
  diff shell args w = (Raise (FileNotFoundError "packages"), w).
Proof.
  assert (P : packages args w = (Raise (FileNotFoundError "packages"), w)).
  { unfold packages, bind, Os.listdir. now rewrite Hroot. }
  unfold ci, build, clean, npm, publish, status_handler, diff, bind.
  rewrite P. repeat split.
Qed.

Lemma handlers_without_packages_root_witness :
  packages (mkArgs "smc-hub" false false []) SampleGit.bare =
    (Raise (FileNotFoundError "packages"), SampleGit.bare) /\
  ci Sample.quiet (mkArgs "smc-hub" false false []) SampleGit.bare =
    (Raise (FileNotFoundError "packages"), SampleGit.bare) /\
  build Sample.quiet (mkArgs "smc-hub" false false []) SampleGit.bare =
    (Raise (FileNotFoundError "packages"), SampleGit.bare) /\
  clean Sample.quiet SampleGit.serial_pool (mkArgs "smc-hub" false false []) SampleGit.bare =
    (Raise (FileNotFoundError "packages"), SampleGit.bare) /\
  npm Sample.quiet SampleGit.serial_pool (mkArgs "smc-hub" false false []) SampleGit.bare =
    (Raise (FileNotFoundError "packages"), SampleGit.bare) /\
  publish Sample.quiet (mkArgs "smc-hub" false false []) SampleGit.bare =
    (Raise (FileNotFoundError "packages"), SampleGit.bare) /\
  status_handler Sample.quiet (mkArgs "smc-hub" false false []) SampleGit.bare =
    (Raise (FileNotFoundError "packages"), SampleGit.bare) /\
  diff Sample.quiet (mkArgs "smc-hub" false false []) SampleGit.bare =
    (Raise (FileNotFoundError "packages"), SampleGit.bare).
Proof.
  apply (handlers_without_packages_root Sample.quiet SampleGit.serial_pool
           (mkArgs "smc-hub" false false []) SampleGit.bare).
  reflexivity.
Defined.

(** X16: a filter that selects no package makes every handler return
    without running a command, for any pool: [ci], [build], [npm],
    [publish], [status] and [diff] add nothing to what [packages] printed,
    and [clean] only prints its two banners; [clean] and [npm] create no
    pool. *)
Theorem handlers_on_empty_selection
  (shell : string -> string -> FS -> ShellOut)
  (pool_map : forall A B : Type, Z -> (A -> M B) -> list A -> M (list B))
  (args : Args) (w w0 : World)
  (Hsel : packages args w = (Ok [], w0)) :
  ci shell args w = (Ok tt, w0) /\
  build shell args w = (Ok tt, w0) /\
  npm shell pool_map args w = (Ok tt, w0) /\
  publish shell args w = (Ok tt, w0) /\
  status_handler shell args w = (Ok (Some tt), w0) /\
  diff shell args w = (Ok (Some tt), w0) /\
  clean shell pool_map args w =
    (Ok tt,
     mkWorld (cwd w0) (fs w0)
       (log w0 ++ banner_lines "No node_modules or dist directories" ++
        banner_lines "Running 'npm run clean' if it exists...")).
Proof.
  unfold ci, build, npm, publish, status_handler, diff, clean, bind.
  rewrite Hsel. cbn [for_each for_each_indexed list_comp clean_outer ret List.length
                       Nat.eqb thread_map].
  repeat (split; [reflexivity|]).
  rewrite !HandlerFacts.banner_run. cbn [cwd fs log ret].
  now rewrite <- app_assoc.
Qed.

Lemma handlers_on_empty_selection_witness :
  let args := mkArgs "no-such-package" false false [] in
  let w0 := printed "Packages:  " Sample.world in
  ci Sample.quiet args Sample.world = (Ok tt, w0) /\
  build Sample.quiet args Sample.world = (Ok tt, w0) /\
  npm Sample.quiet SampleGit.serial_pool args Sample.world = (Ok tt, w0) /\
  publish Sample.quiet args Sample.world = (Ok tt, w0) /\
  status_handler Sample.quiet args Sample.world = (Ok (Some tt), w0) /\
  diff Sample.quiet args Sample.world = (Ok (Some tt), w0) /\
  clean Sample.quiet SampleGit.serial_pool args Sample.world =
    (Ok tt,
     mkWorld (cwd w0) (fs w0)
       (log w0 ++ banner_lines "No node_modules or dist directories" ++
        banner_lines "Running 'npm run clean' if it exists...")).
Proof.
  apply (handlers_on_empty_selection Sample.quiet SampleGit.serial_pool
           (mkArgs "no-such-package" false false []) Sample.world).
  reflexivity.
Defined.

(** X17: the folders [clean] collects for deletion are, package by package
    in the order of the selection and folder by folder in the order of the
    folder list, the absolute paths of those that exist; collecting changes
    nothing. *)
Theorem clean_collects_existing (args : Args) (v : list string) (w : World) :
  clean_outer v (clean_folders args) [] w =
  (Ok (filter (exists_in w)
         (flat_map (fun p => map (fun x => PosixPath.abspath_from (cwd w)
                                             (PosixPath.join p x))
                               (clean_folders args)) v)), w).
Proof. apply HandlerFacts.clean_outer_run. Qed.

(** X18: when none of the folders to delete exists under a selected
    package, [clean] deletes nothing and creates no pool for deletions: it
    prints the banner that says so and the banner of the second step, and
    hands the clean command of every selected package, by absolute path, to
    the mapper with ten workers. *)
Theorem clean_nothing_to_delete
  (shell : string -> string -> FS -> ShellOut)
  (pool_map : forall A B : Type, Z -> (A -> M B) -> list A -> M (list B))
  (args : Args) (w w0 : World) (v : list string)
  (Hsel : packages args w = (Ok v, w0))
  (Hnone : forall p x, In p v -> In x (clean_folders args) ->
     exists_in w (PosixPath.abspath_from (cwd w) (PosixPath.join p x)) = false) :
  clean shell pool_map args w =
  bind (thread_map pool_map (clean_g shell)
          (map (PosixPath.abspath_from (cwd w)) v) 10)
       (fun _ => ret tt)
       (mkWorld (cwd w0) (fs w0)
          (log w0 ++ banner_lines "No node_modules or dist directories" ++
           banner_lines "Running 'npm run clean' if it exists...")).
Proof.
  destruct (ExecFacts.packages_frame _ _ _ _ Hsel) as (C0 & F0).
  unfold clean. unfold bind at 1. rewrite Hsel.
  unfold bind at 1. rewrite HandlerFacts.clean_outer_run. cbn [app].
  assert (E : filter (exists_in w0)
                (flat_map (fun p => map (fun x => PosixPath.abspath_from (cwd w0)
                                                    (PosixPath.join p x))
                                      (clean_folders args)) v) = []).
  { apply HandlerFacts.filter_none. intros y Hy.
    apply in_flat_map in Hy as (q & Hq & Hy).
    apply in_map_iff in Hy as (x & <- & Hx).
    unfold exists_in. rewrite C0, F0. now apply Hnone. }
  rewrite E. cbn [List.length Nat.eqb].
  unfold bind at 1. unfold bind at 1. rewrite HandlerFacts.banner_run.
  unfold bind at 1. rewrite HandlerFacts.banner_run. cbn [cwd fs log].
  unfold bind at 1. rewrite HandlerFacts.abspath_all. cbn [cwd].
  rewrite C0, <- app_assoc. reflexivity.
Qed.

Lemma clean_nothing_to_delete_witness :
  clean Sample.quiet SampleGit.serial_pool (mkArgs "util" true false []) Sample.world =
  bind (thread_map SampleGit.serial_pool (clean_g Sample.quiet)
          (map (PosixPath.abspath_from "/repo") ["smc-util"]) 10)
       (fun _ => ret tt)
       (mkWorld "/repo" Sample.tree
          (log (printed "Packages:  smc-util" Sample.world) ++
           banner_lines "No node_modules or dist directories" ++
           banner_lines "Running 'npm run clean' if it exists...")).
Proof.
  apply (clean_nothing_to_delete Sample.quiet SampleGit.serial_pool
           (mkArgs "util" true false []) Sample.world
           (printed "Packages:  smc-util" Sample.world) ["smc-util"]).
  - reflexivity.
  - intros p x [<-|[]] [<-|[]]. reflexivity.
Defined.

(** X19: [version_check] runs the check script once, from the directory the
    process is in and without any change of directory, whatever its
    arguments; when that directory is still there afterwards it raises the
    execution error exactly when the script exits with a status that is not
    zero. *)
Theorem version_check_runs_script (shell : string -> string -> FS -> ShellOut)
  (args : Args) (w : World) (Hwf : wf_cwd w)
  (Hhome : Os.lookup (fs_after (shell "scripts/check_npm_packages.py" (cwd w) (fs w)))
             (cwd w) = Some Dir) :
  let s := "scripts/check_npm_packages.py" in
  let o := shell s (cwd w) (fs w) in
  version_check shell args w =
  (if Z.eqb (status o) 0 then Ok tt else Raise (execution_error s),
   mkWorld (cwd w) (fs_after o) (log w ++ [EvPrint s; EvShell s (cwd w) (fs w)])).
Proof.
  intros s o. unfold version_check.
  destruct (cmd shell s None true w) as [r w'] eqn:E.
  destruct (EffectFacts.cmd_shape _ _ _ _ _ _ _ Hwf E)
    as [(q & e & F & _)|(L & F & R)]; [discriminate|].
  cbn [target announced app] in L, F, R. fold o in F, R.
  assert (D : Os.lookup (fs w') (cwd w) = Some Dir) by (now rewrite F).
  destruct (R D) as (C & Hr). fold s. rewrite E, Hr. f_equal.
  now apply EffectFacts.world_ext.
Qed.

Lemma version_check_runs_script_witness :
  let s := "scripts/check_npm_packages.py" in
  let o := Sample.quiet s "/repo" Sample.tree in
  version_check Sample.quiet (mkArgs "" false false []) Sample.world =
  (if Z.eqb (status o) 0 then Ok tt else Raise (execution_error s),
   mkWorld "/repo" (fs_after o)
     (log Sample.world ++ [EvPrint s; EvShell s "/repo" Sample.tree])).
Proof.
  apply (version_check_runs_script Sample.quiet (mkArgs "" false false [])
           Sample.world).
  - split; reflexivity.
  - reflexivity.
Defined.
